(** * libfranka network transport: a shallow embedding and its properties

    The development follows [network.h] (class [Network] and the free
    function [connect]) and [library_downloader.cpp].  The two Poco
    sockets are the platform; they are modelled below as explicit state
    (received bytes, bytes still in flight, queued datagrams), and every
    member function of [Network] becomes a state transformer over that
    state.  Integers of fixed width are [Z] with the wrap-around written
    out; wire data is [list byte]. *)

From Stdlib Require Import String Ascii DecimalString.
From Stdlib Require Import ZArith List Bool Lia Arith.
From Stdlib Require Floats.
Import ListNotations.

Local Open Scope string_scope.
Local Open Scope list_scope.

Local Open Scope Z_scope.

(** ** Fixed-width integers *)

Definition uint32_modulus : Z := 2 ^ 32.
Definition uint32_wrap (z : Z) : Z := z mod uint32_modulus.

(** ** Object representations

    [sizeof(T)], the bytes of an object as [sendBytes] sees them, and
    the [reinterpret_cast] of a received buffer.  The layouts of the
    protocol structs live in the research interface headers, so the
    embedding is parametric in them. *)

Class Wire (A : Type) : Type := {
  sizeof : nat;
  to_bytes : A -> list Byte.byte;
  of_bytes : list Byte.byte -> A
}.
Arguments sizeof A {_}.

(** [typename T::Header]: built as [Header(T::kCommand, command_id)] and
    read through its members [command] and [command_id]. *)
Record Header : Type := {
  command : Z;
  command_id : Z
}.

(** The template parameter [T] of the TCP member functions: a command
    type with its [kCommand] tag and its [Request] and [Response]
    structs. *)
Class Command : Type := {
  kCommand : Z;
  Request : Type;
  Response : Type;
  Header_wire :: Wire Header;
  Request_wire :: Wire Request;
  Response_wire :: Wire Response
}.

(** ** Exceptions and results *)

Inductive exception : Type :=
| NetworkException (what : string)
| ProtocolException (what : string)
| IncompatibleVersionException (what : string)
| ModelException (what : string).

Inductive result (A : Type) : Type :=
| Ok (a : A)
| Throw (e : exception).
Arguments Ok {A} a.
Arguments Throw {A} e.

(** What a Poco socket call gives back: a value, or a [Poco::Exception]
    with its [what()] text. *)
Inductive poco (A : Type) : Type :=
| PocoOk (a : A)
| PocoThrow (what : string).
Arguments PocoOk {A} a.
Arguments PocoThrow {A} what.

(** ** The sockets *)

(** [Poco::Net::StreamSocket], client side.  [rx_ready] holds the bytes
    that have arrived and were not read yet (what [available()] counts);
    [rx_later] the bytes still on their way, grouped by the poll interval
    in which they arrive, after which the peer stays silent; [tx_sent]
    the buffers written so far, one entry per [sendBytes]; [tx_script]
    the outcome of the coming [sendBytes] calls ([Some what]: the call
    throws). *)
Record StreamSocket : Type := {
  rx_ready : list Byte.byte;
  rx_later : list (list Byte.byte);
  tx_sent : list (list Byte.byte);
  tx_script : list (option string)
}.

(** [Poco::Net::DatagramSocket]: the datagrams queued at the socket,
    oldest first, and those that arrive later within the receive
    timeout. *)
Record DatagramSocket : Type := {
  dg_queue : list (list Byte.byte);
  dg_later : list (list Byte.byte)
}.

(** The data members of [Network] (the two mutexes guard them and carry
    no data of their own). *)
Record Network : Type := {
  tcp_socket_ : StreamSocket;
  udp_socket_ : DatagramSocket;
  udp_port_ : Z;
  command_id_ : Z
}.

Definition set_tcp_socket (s : StreamSocket) (n : Network) : Network :=
  {| tcp_socket_ := s; udp_socket_ := udp_socket_ n;
     udp_port_ := udp_port_ n; command_id_ := command_id_ n |}.

Definition set_udp_socket (s : DatagramSocket) (n : Network) : Network :=
  {| tcp_socket_ := tcp_socket_ n; udp_socket_ := s;
     udp_port_ := udp_port_ n; command_id_ := command_id_ n |}.

Definition set_command_id (c : Z) (n : Network) : Network :=
  {| tcp_socket_ := tcp_socket_ n; udp_socket_ := udp_socket_ n;
     udp_port_ := udp_port_ n; command_id_ := c |}.

(** A connection as the constructor leaves it: [command_id_{0}]. *)
Definition fresh (tcp : StreamSocket) (udp : DatagramSocket) (port : Z) : Network :=
  {| tcp_socket_ := tcp; udp_socket_ := udp; udp_port_ := port; command_id_ := 0 |}.

(** Every byte the stream socket has or will ever have to read. *)
Definition rx_stream (s : StreamSocket) : list Byte.byte :=
  rx_ready s ++ concat (rx_later s).

(** *** Stream socket primitives *)

(** [available()]. *)
Definition tcp_available (s : StreamSocket) : nat := length (rx_ready s).

(** [poll(0, SELECT_READ)]: readable right now. *)
Definition tcp_poll_now (s : StreamSocket) : bool :=
  negb (Nat.eqb (length (rx_ready s)) 0).

(** [poll(Timespan(0, 1e4), SELECT_READ)]: one poll interval goes by and
    what was due in it has arrived. *)
Definition tcp_poll_wait (s : StreamSocket) : StreamSocket :=
  match rx_later s with
  | [] => s
  | chunk :: later =>
      {| rx_ready := rx_ready s ++ chunk; rx_later := later;
         tx_sent := tx_sent s; tx_script := tx_script s |}
  end.

(** [receiveBytes(buf, n, MSG_PEEK)]: up to [n] bytes, left in place. *)
Definition receiveBytes_peek (n : nat) (s : StreamSocket) : list Byte.byte :=
  firstn n (rx_ready s).

(** [sendBytes(buf, n)]. *)
Definition sendBytes (buf : list Byte.byte) (s : StreamSocket)
  : poco unit * StreamSocket :=
  match tx_script s with
  | Some what :: script =>
      (PocoThrow what,
       {| rx_ready := rx_ready s; rx_later := rx_later s;
          tx_sent := tx_sent s; tx_script := script |})
  | _ =>
      (PocoOk tt,
       {| rx_ready := rx_ready s; rx_later := rx_later s;
          tx_sent := tx_sent s ++ [buf]; tx_script := tl (tx_script s) |})
  end.

(** *** Datagram socket primitives *)

(** [available()]: the size of the datagram at the head of the queue. *)
Definition udp_available (s : DatagramSocket) : nat :=
  match dg_queue s with
  | [] => 0%nat
  | d :: _ => length d
  end.

(** [receiveFrom(buf, n, addr)]: takes the oldest datagram off the queue,
    waiting for the next one when the queue is empty, and copies at most
    [n] of its bytes (the rest of a longer datagram is dropped); a
    receive timeout is a [Poco::TimeoutException]. *)
Definition receiveFrom (n : nat) (s : DatagramSocket)
  : poco (list Byte.byte) * DatagramSocket :=
  match dg_queue s with
  | d :: queue =>
      (PocoOk (firstn n d), {| dg_queue := queue; dg_later := dg_later s |})
  | [] =>
      match dg_later s with
      | d :: later => (PocoOk (firstn n d), {| dg_queue := []; dg_later := later |})
      | [] => (PocoThrow "Timeout", s)
      end
  end.

(** ** Member functions of [Network] *)

Definition M (A : Type) : Type := Network -> result A * Network.

(** Modelled from the spec: [Network::udpPort] is declared in [network.h]
    and defined in [network.cpp], which is not among the sources.  The
    spec has the streaming channel find out its own local port when it
    is bound, to be passed on to the server at connection setup. *)
Definition udpPort (n : Network) : Z := udp_port_ n.

(** [Network::tcpSendRequest<T>]: the header takes [command_id_++], the
    struct of header and payload goes out in one [sendBytes], and the
    header's identifier is returned; a [Poco::Exception] becomes a
    [NetworkException]. *)
Definition tcpSendRequest {T : Command} (payload : Request) : M Z :=
  fun n =>
    let header := {| command := kCommand; command_id := command_id_ n |} in
    let n1 := set_command_id (uint32_wrap (command_id_ n + 1)) n in
    let request := to_bytes header ++ to_bytes payload in
    match sendBytes request (tcp_socket_ n1) with
    | (PocoOk _, sock) => (Ok (command_id header), set_tcp_socket sock n1)
    | (PocoThrow what, sock) =>
        (Throw (NetworkException ("libfranka: TCP send bytes: " ++ what)%string),
         set_tcp_socket sock n1)
    end.

(** [Network::udpBlockingReceiveUnsafe<T>]: one [receiveFrom] into a
    buffer of [sizeof(T)] bytes; a byte count other than the buffer's
    size is a [ProtocolException], a [Poco::Exception] a
    [NetworkException]. *)
Definition udpBlockingReceiveUnsafe {A : Type} {W : Wire A} : M A :=
  fun n =>
    match receiveFrom (sizeof A) (udp_socket_ n) with
    | (PocoOk buffer, sock) =>
        let bytes_received := length buffer in
        if negb (Nat.eqb bytes_received (sizeof A))
        then (Throw (ProtocolException "libfranka: incorrect object size"),
              set_udp_socket sock n)
        else (Ok (of_bytes buffer), set_udp_socket sock n)
    | (PocoThrow what, sock) =>
        (Throw (NetworkException ("libfranka: UDP receive: " ++ what)%string),
         set_udp_socket sock n)
    end.

(** [Network::udpBlockingReceive<T>]. *)
Definition udpBlockingReceive {A : Type} {W : Wire A} : M A :=
  udpBlockingReceiveUnsafe.

(** [Network::udpReceive<T>(T* data)]: the pair returned is the [bool]
    and what [*data] holds afterwards. *)
Definition udpReceive {A : Type} {W : Wire A} (data : A) : M (bool * A) :=
  fun n =>
    if (sizeof A <=? udp_available (udp_socket_ n))%nat
    then match udpBlockingReceiveUnsafe n with
         | (Ok received, n') => (Ok (true, received), n')
         | (Throw e, n') => (Throw e, n')
         end
    else (Ok (false, data), n).

(** [Network::tcpPeekHeaderUnsafe<T>(T* header)]: [None] is the [false]
    return, [Some h] is [true] with [*header = h].  The socket calls made
    here raise nothing in this model of the socket. *)
Definition tcpPeekHeaderUnsafe {A : Type} {W : Wire A} : M (option A) :=
  fun n =>
    let sock := tcp_socket_ n in
    if tcp_poll_now sock && (sizeof A <=? tcp_available sock)%nat
    then
      let buf := receiveBytes_peek (sizeof A) sock in
      let rv := length buf in
      if negb (Nat.eqb rv (sizeof A))
      then (Throw (NetworkException "libfranka: Could not read data."), n)
      else (Ok (Some (of_bytes buf)), n)
    else (Ok None, n).

(** Waits until [n] bytes are there to read or nothing more is due. *)
Fixpoint await_bytes (n : nat) (ready : list Byte.byte)
    (later : list (list Byte.byte)) {struct later}
  : list Byte.byte * list (list Byte.byte) :=
  match later with
  | [] => (ready, [])
  | chunk :: later' =>
      if (n <=? length ready)%nat then (ready, later)
      else await_bytes n (ready ++ chunk) later'
  end.

Definition short_read_what : string := "libfranka: server closed connection".

(** Modelled from the spec: [Network::tcpReceiveIntoBufferUnsafe] is
    declared in [network.h] and defined in [network.cpp], which is not
    among the sources.  The spec has it block until exactly [read_size]
    bytes were read off the stream, and "a short read (fewer bytes than
    the declared frame size) is always a transport failure, never
    silently retried". *)
Definition tcpReceiveIntoBufferUnsafe (read_size : nat) : M (list Byte.byte) :=
  fun n =>
    let sock := tcp_socket_ n in
    let '(ready, later) := await_bytes read_size (rx_ready sock) (rx_later sock) in
    if (read_size <=? length ready)%nat
    then (Ok (firstn read_size ready),
          set_tcp_socket {| rx_ready := skipn read_size ready; rx_later := later;
                            tx_sent := tx_sent sock; tx_script := tx_script sock |} n)
    else (Throw (NetworkException short_read_what),
          set_tcp_socket {| rx_ready := []; rx_later := [];
                            tx_sent := tx_sent sock; tx_script := tx_script sock |} n).

(** [Network::tcpReceiveIntoBuffer]: the same under the TCP lock. *)
Definition tcpReceiveIntoBuffer (read_size : nat) : M (list Byte.byte) :=
  tcpReceiveIntoBufferUnsafe read_size.

(** The test both receive functions make on a peeked header. *)
Definition header_matches {T : Command} (id : Z) (peeked : option Header) : bool :=
  match peeked with
  | Some h => (command h =? kCommand) && (command_id h =? id)
  | None => false
  end.

(** The local struct of both receive functions: a header followed by
    [sizeof(T::Response)] payload bytes (the protocol structs are packed,
    so nothing lies between or after the two). *)
Definition sizeof_response_frame {T : Command} : nat :=
  (sizeof Header + sizeof Response)%nat.

Definition response_payload {T : Command} (frame : list Byte.byte) : Response :=
  of_bytes (skipn (sizeof Header) frame).

(** [Network::tcpReceiveResponse<T>(command_id, handler)].  The handler
    acts on the caller's state [S]; the pair returned is the [bool] and
    that state afterwards. *)
Definition tcpReceiveResponse {T : Command} {S : Type}
    (id : Z) (handler : Response -> S -> S) (caller : S) : M (bool * S) :=
  fun n =>
    match tcpPeekHeaderUnsafe n with
    | (Throw e, n1) => (Throw e, n1)
    | (Ok peeked, n1) =>
        if negb (header_matches id peeked) then (Ok (false, caller), n1)
        else
          match tcpReceiveIntoBufferUnsafe sizeof_response_frame n1 with
          | (Throw e, n2) => (Throw e, n2)
          | (Ok response, n2) =>
              (Ok (true, handler (response_payload response) caller), n2)
          end
    end.

(** A call that may still be inside its wait loop when the iterations
    granted to it are used up. *)
Inductive progress (A : Type) : Type :=
| Done (r : result A)
| Waiting.
Arguments Done {A} r.
Arguments Waiting {A}.

(** The connection after [tcp_socket_.poll(Timespan(0, 1e4), SELECT_READ)]. *)
Definition polled (n : Network) : Network :=
  set_tcp_socket (tcp_poll_wait (tcp_socket_ n)) n.

(** [Network::tcpBlockingReceiveResponse<T>(command_id)]; [fuel] bounds
    the iterations of [while (true)].  Each iteration polls for one
    interval, peeks, and either breaks or goes round again. *)
Fixpoint tcpBlockingReceiveResponse {T : Command} (fuel : nat) (id : Z)
    (n : Network) : progress Response * Network :=
  match fuel with
  | O => (Waiting, n)
  | S fuel' =>
      match tcpPeekHeaderUnsafe (polled n) with
      | (Throw e, n1) => (Done (Throw e), n1)
      | (Ok peeked, n1) =>
          if header_matches id peeked
          then
            match tcpReceiveIntoBufferUnsafe sizeof_response_frame n1 with
            | (Throw e, n2) => (Done (Throw e), n2)
            | (Ok response, n2) => (Done (Ok (response_payload response)), n2)
            end
          else tcpBlockingReceiveResponse fuel' id n1
      end
  end.

(** ** Version negotiation: [connect<T, kLibraryVersion>] *)

Module Connect.

(** [T::Status] as [connect] tells its values apart: the two it names
    and whatever else arrives ([default:]). *)
Inductive Status : Type :=
| kSuccess
| kIncompatibleLibraryVersion
| kOther (raw : Z).

(** [T::Response]: [connect] reads its members [status] and
    [version]. *)
Record Response : Type := {
  status : Status;
  version : Z
}.

(** Modelled from the spec: the connect request struct is declared in
    the research interface headers, not among the sources; [connect]
    only hands its constructor the UDP port.  The spec lists the
    "Connect request fields: client-chosen UDP receive port, client
    protocol version". *)
Record Request : Type := {
  request_version : Z;
  udp_port : Z
}.

End Connect.

(** What a connect command type brings with it: its tag, the protocol
    version its request constructor fills in, and the three layouts. *)
Class ConnectInterface : Type := {
  connect_kCommand : Z;
  connect_kVersion : Z;
  connect_Header_wire : Wire Header;
  connect_Request_wire : Wire Connect.Request;
  connect_Response_wire : Wire Connect.Response
}.

(** The command type [T] that [connect] is instantiated with. *)
Definition Connect_Command (I : ConnectInterface) : Command := {|
  kCommand := connect_kCommand;
  Request := Connect.Request;
  Response := Connect.Response;
  Header_wire := connect_Header_wire;
  Request_wire := connect_Request_wire;
  Response_wire := connect_Response_wire
|}.

(** Modelled from the spec: [T::Request(udp_port)], the constructor of
    the request struct; the version it sends is the interface's own. *)
Definition connect_request {I : ConnectInterface} (port : Z) : Connect.Request :=
  {| Connect.request_version := connect_kVersion; Connect.udp_port := port |}.

(** [operator<<] on a [uint16_t]: the decimal numeral. *)
Definition decimal (z : Z) : string :=
  NilZero.string_of_uint (N.to_uint (Z.to_N z)).

(** [std::endl] as it ends up in the string. *)
Definition endl : string := String (ascii_of_nat 10) EmptyString.

Definition incompatible_version_message (server_version library_version : Z) : string :=
  ("libfranka: incompatible library version. " ++ endl
   ++ "Server version: " ++ decimal server_version ++ endl
   ++ "Library version: " ++ decimal library_version)%string.

(** [needle] occurs in [text]. *)
Definition contains (needle text : string) : Prop :=
  exists before after, text = (before ++ needle ++ after)%string.

(** [connect<T, kLibraryVersion>(network, ri_version)]; the second
    component of the result is what [*ri_version] holds afterwards. *)
Definition connect {I : ConnectInterface} (kLibraryVersion : Z) (fuel : nat)
    (ri_version : Z) (network : Network) : progress unit * Z * Network :=
  match tcpSendRequest (T := Connect_Command I)
          (connect_request (udpPort network)) network with
  | (Throw e, n1) => (Done (Throw e), ri_version, n1)
  | (Ok id, n1) =>
      match tcpBlockingReceiveResponse (T := Connect_Command I) fuel id n1 with
      | (Waiting, n2) => (Waiting, ri_version, n2)
      | (Done (Throw e), n2) => (Done (Throw e), ri_version, n2)
      | (Done (Ok connect_response), n2) =>
          match Connect.status connect_response with
          | Connect.kIncompatibleLibraryVersion =>
              (Done (Throw (IncompatibleVersionException
                        (incompatible_version_message
                           (Connect.version connect_response) kLibraryVersion))),
               ri_version, n2)
          | Connect.kSuccess =>
              (Done (Ok tt), Connect.version connect_response, n2)
          | Connect.kOther _ =>
              (Done (Throw (ProtocolException
                 "libfranka gripper: protocol error during gripper connection attempt")),
               ri_version, n2)
          end
      end
  end.

(** ** The model library download: [LibraryDownloader::LibraryDownloader] *)

Module LoadModelLibrary.

(** The two enumerators the constructor passes on. *)
Inductive Architecture : Type := kX64.
Inductive System : Type := kLinux.

(** [LoadModelLibrary::Request(architecture, system)]. *)
Record Request : Type := {
  architecture : Architecture;
  system : System
}.

(** [LoadModelLibrary::Status]: [kSuccess] and any other value. *)
Inductive Status : Type :=
| kSuccess
| kOther (raw : Z).

(** [LoadModelLibrary::Response]: the constructor reads its members
    [status] and [size]. *)
Record Response : Type := {
  status : Status;
  size : nat
}.

End LoadModelLibrary.

(** What [research_interface::robot::LoadModelLibrary] brings with it:
    its tag and the three layouts. *)
Class LoadModelLibraryInterface : Type := {
  load_kCommand : Z;
  load_Header_wire : Wire Header;
  load_Request_wire : Wire LoadModelLibrary.Request;
  load_Response_wire : Wire LoadModelLibrary.Response
}.

(** The command type [LoadModelLibrary] of the constructor's two calls. *)
Definition LoadModelLibrary_Command (I : LoadModelLibraryInterface) : Command := {|
  kCommand := load_kCommand;
  Request := LoadModelLibrary.Request;
  Response := LoadModelLibrary.Response;
  Header_wire := load_Header_wire;
  Request_wire := load_Request_wire;
  Response_wire := load_Response_wire
|}.

(** Local storage: the files by path, and whether the place can be
    written at all. *)
Record Storage : Type := {
  files : list (string * list Byte.byte);
  writable : bool
}.

(** [std::ofstream stream(path, out | binary); stream.write(data, n)]:
    the file is made anew with [data] in it.  The stream is used with
    its default exception mask, so a failure to open or to write sets
    the stream's state bits and throws nothing. *)
Definition ofstream_write (path : string) (data : list Byte.byte)
    (disk : Storage) : Storage :=
  if writable disk
  then {| files := (path, data)
                   :: filter (fun f => negb (String.eqb (fst f) path)) (files disk);
          writable := true |}
  else disk.

(** [static_cast<int>(buffer.size())] handed to the [size_t] parameter
    [read_size]: the low 32 bits of the size read as a signed number,
    and that number taken modulo [2^64].  Below [2^31] it is the size
    itself. *)
Definition read_size_of (size : nat) : nat :=
  let low := (Z.of_nat size mod 2 ^ 32)%Z in
  let as_int := (if low <? 2 ^ 31 then low else low - 2 ^ 32)%Z in
  Z.to_nat (as_int mod 2 ^ 64).

(** [std::vector<uint8_t> buffer(response.size)] after the read: [size]
    bytes, zero where the read wrote nothing (a read longer than the
    buffer runs past its end; the vector keeps its [size] bytes). *)
Definition filled_buffer (size : nat) (received : list Byte.byte) : list Byte.byte :=
  firstn size (received ++ repeat Byte.x00 (size - length received)).

(** The [try] block of the constructor and its handler,
    [catch (const std::exception& ex)]: it catches what the block
    throws, the exceptions of the library being [std::runtime_error]s,
    and throws the [ModelException] in its place. *)
Definition receive_and_save (path : string) (declared : nat)
    (disk : Storage) (n : Network) : result unit * Storage * Network :=
  match tcpReceiveIntoBuffer (read_size_of declared) n with
  | (Ok received, n1) =>
      (Ok tt, ofstream_write path (filled_buffer declared received) disk, n1)
  | (Throw ex, n1) =>
      (Throw (ModelException "libfranka: Cannot save model library."), disk, n1)
  end.

(** [LibraryDownloader::LibraryDownloader(network)]; [path] is [path()]
    of the temporary file the object owns. *)
Definition LibraryDownloader {I : LoadModelLibraryInterface} (fuel : nat)
    (path : string) (disk : Storage) (network : Network)
  : progress unit * Storage * Network :=
  match tcpSendRequest (T := LoadModelLibrary_Command I)
          {| LoadModelLibrary.architecture := LoadModelLibrary.kX64;
             LoadModelLibrary.system := LoadModelLibrary.kLinux |} network with
  | (Throw e, n1) => (Done (Throw e), disk, n1)
  | (Ok id, n1) =>
      match tcpBlockingReceiveResponse (T := LoadModelLibrary_Command I) fuel id n1 with
      | (Waiting, n2) => (Waiting, disk, n2)
      | (Done (Throw e), n2) => (Done (Throw e), disk, n2)
      | (Done (Ok response), n2) =>
          match LoadModelLibrary.status response with
          | LoadModelLibrary.kSuccess =>
              let '(r, disk', n3) :=
                receive_and_save path (LoadModelLibrary.size response) disk n2 in
              (Done r, disk', n3)
          | LoadModelLibrary.kOther _ =>
              (Done (Throw (ModelException
                 "libfranka: Server reports error when loading model library.")),
               disk, n2)
          end
      end
  end.

(** ** What the reliable channel holds

    The frame at the head of the stream, read off all the bytes the
    socket has or will have. *)

Definition head_header {T : Command} (n : Network) : Header :=
  of_bytes (firstn (sizeof Header) (rx_stream (tcp_socket_ n))).

Definition head_payload {T : Command} (n : Network) : Response :=
  of_bytes (firstn (sizeof Response)
              (skipn (sizeof Header) (rx_stream (tcp_socket_ n)))).

(** The header and the payload of the second frame on the stream. *)
Definition second_header {T : Command} (n : Network) : Header :=
  of_bytes (firstn (sizeof Header)
              (skipn sizeof_response_frame (rx_stream (tcp_socket_ n)))).

Definition second_payload {T : Command} (n : Network) : Response :=
  of_bytes (firstn (sizeof Response)
              (skipn (sizeof Header)
                 (skipn sizeof_response_frame (rx_stream (tcp_socket_ n))))).

(** The bytes that follow the reply to the model library request on the
    stream. *)
Definition after_reply {I : LoadModelLibraryInterface} (network : Network)
  : list Byte.byte :=
  skipn (sizeof_response_frame (T := LoadModelLibrary_Command I))
    (rx_stream (tcp_socket_ network)).

(** [n'] differs from [n] at most in what is left to read on the stream
    socket. *)
Definition rx_only (n n' : Network) : Prop :=
  tx_sent (tcp_socket_ n') = tx_sent (tcp_socket_ n) /\
  tx_script (tcp_socket_ n') = tx_script (tcp_socket_ n) /\
  udp_socket_ n' = udp_socket_ n /\
  udp_port_ n' = udp_port_ n /\
  command_id_ n' = command_id_ n.

(** ** Sequences of receives on the streaming channel *)

(** What [k] calls of [udpReceive(&data)] in a row return, each call
    finding in [*data] what the call before left there. *)
Fixpoint udpReceive_each {A : Type} {W : Wire A} (k : nat) (data : A)
    (n : Network) : list (result (bool * A)) * Network :=
  match k with
  | O => ([], n)
  | S k' =>
      match udpReceive data n with
      | (Ok (received, data'), n') =>
          let '(rest, n'') := udpReceive_each k' data' n' in
          (Ok (received, data') :: rest, n'')
      | (Throw e, n') =>
          let '(rest, n'') := udpReceive_each k' data n' in
          (Throw e :: rest, n'')
      end
  end.

(** ** Sequences of requests on one connection *)

(** A request of any command type, as one call of [tcpSendRequest<T>]
    takes it. *)
Record AnyRequest : Type := {
  any_T : Command;
  any_payload : @Request any_T
}.

Definition send_any (r : AnyRequest) : M Z :=
  tcpSendRequest (T := any_T r) (any_payload r).

(** The connection after the first [k] calls of [tcpSendRequest], the
    [i]-th of them (from 0) sending [requests i]. *)
Definition after_sends (requests : N -> AnyRequest) (k : N) (n : Network) : Network :=
  N.peano_rect (fun _ => Network) n
    (fun i acc => snd (send_any (requests i) acc)) k.

(** The call number [k] (from 0) of such a sequence. *)
Definition send_nth (requests : N -> AnyRequest) (k : N) (n : Network)
  : result Z * Network :=
  send_any (requests k) (after_sends requests k n).

(** ** A concrete interface

    Packed little-endian structs, as on the x86-64 hosts the library
    runs on.  The general results below hold for any layout; this one
    serves to run the functions on concrete connections. *)

Module LittleEndian.

Definition byte_of_Z (z : Z) : Byte.byte :=
  match Byte.of_N (Z.to_N (z mod 256)) with
  | Some b => b
  | None => Byte.x00
  end.

Definition Z_of_byte (b : Byte.byte) : Z := Z.of_N (Byte.to_N b).

Fixpoint encode (width : nat) (z : Z) : list Byte.byte :=
  match width with
  | O => []
  | S w => byte_of_Z z :: encode w (z / 256)
  end.

Fixpoint decode (bs : list Byte.byte) : Z :=
  match bs with
  | [] => 0
  | b :: bs' => Z_of_byte b + 256 * decode bs'
  end.

Definition field (offset width : nat) (bs : list Byte.byte) : Z :=
  decode (firstn width (skipn offset bs)).

Definition Header_le : Wire Header := {|
  sizeof := 8;
  to_bytes h := encode 4 (command h) ++ encode 4 (command_id h);
  of_bytes bs := {| command := field 0 4 bs; command_id := field 4 4 bs |}
|}.

Definition encode_status (s : Connect.Status) : Z :=
  match s with
  | Connect.kSuccess => 0
  | Connect.kIncompatibleLibraryVersion => 1
  | Connect.kOther raw => raw
  end.

Definition decode_status (z : Z) : Connect.Status :=
  if z =? 0 then Connect.kSuccess
  else if z =? 1 then Connect.kIncompatibleLibraryVersion
  else Connect.kOther z.

Definition ConnectRequest_le : Wire Connect.Request := {|
  sizeof := 4;
  to_bytes r := encode 2 (Connect.request_version r) ++ encode 2 (Connect.udp_port r);
  of_bytes bs := {| Connect.request_version := field 0 2 bs;
                    Connect.udp_port := field 2 2 bs |}
|}.

Definition ConnectResponse_le : Wire Connect.Response := {|
  sizeof := 3;
  to_bytes r := encode 1 (encode_status (Connect.status r)) ++ encode 2 (Connect.version r);
  of_bytes bs := {| Connect.status := decode_status (field 0 1 bs);
                    Connect.version := field 1 2 bs |}
|}.

(** A connect interface with tag 0, speaking protocol version
    [kVersion]. *)
Definition connect_interface (kVersion : Z) : ConnectInterface := {|
  connect_kCommand := 0;
  connect_kVersion := kVersion;
  connect_Header_wire := Header_le;
  connect_Request_wire := ConnectRequest_le;
  connect_Response_wire := ConnectResponse_le
|}.

Definition LoadRequest_le : Wire LoadModelLibrary.Request := {|
  sizeof := 2;
  to_bytes r := encode 1 0 ++ encode 1 0;
  of_bytes bs := {| LoadModelLibrary.architecture := LoadModelLibrary.kX64;
                    LoadModelLibrary.system := LoadModelLibrary.kLinux |}
|}.

Definition LoadResponse_le : Wire LoadModelLibrary.Response := {|
  sizeof := 5;
  to_bytes r :=
    encode 1 (match LoadModelLibrary.status r with
              | LoadModelLibrary.kSuccess => 0
              | LoadModelLibrary.kOther raw => raw
              end)
    ++ encode 4 (Z.of_nat (LoadModelLibrary.size r));
  of_bytes bs :=
    {| LoadModelLibrary.status :=
         (if field 0 1 bs =? 0 then LoadModelLibrary.kSuccess
          else LoadModelLibrary.kOther (field 0 1 bs));
       LoadModelLibrary.size := Z.to_nat (field 1 4 bs) |}
|}.

(** A model library interface with tag 7. *)
Definition load_interface : LoadModelLibraryInterface := {|
  load_kCommand := 7;
  load_Header_wire := Header_le;
  load_Request_wire := LoadRequest_le;
  load_Response_wire := LoadResponse_le
|}.

(** A state snapshot of four bytes: one counter. *)
Record Snapshot : Type := { message_id : Z }.

Definition Snapshot_le : Wire Snapshot := {|
  sizeof := 4;
  to_bytes s := encode 4 (message_id s);
  of_bytes bs := {| message_id := field 0 4 bs |}
|}.

(** A stream socket with [ready] to read, [later] still to come,
    nothing sent yet and no send failing. *)
Definition stream (ready : list Byte.byte) (later : list (list Byte.byte))
  : StreamSocket :=
  {| rx_ready := ready; rx_later := later; tx_sent := []; tx_script := [] |}.

(** A datagram socket with [queue] waiting and nothing more to come. *)
Definition datagrams (queue : list (list Byte.byte)) : DatagramSocket :=
  {| dg_queue := queue; dg_later := [] |}.

(** A fresh connection with nothing to read, bound to UDP port 50000. *)
Definition idle : Network := fresh (stream [] []) (datagrams []) 50000.

(** The datagram of the snapshot with counter [i]. *)
Definition snapshot_bytes (i : Z) : list Byte.byte :=
  to_bytes (Wire := Snapshot_le) {| message_id := i |}.

(** The idle connection with snapshot 1 and then snapshot 2 arrived and
    not read yet. *)
Definition two_queued : Network :=
  set_udp_socket (datagrams [snapshot_bytes 1; snapshot_bytes 2]) idle.

(** The idle connection with one datagram of five bytes queued. *)
Definition long_queued : Network :=
  set_udp_socket (datagrams [snapshot_bytes 1 ++ [Byte.xff]]) idle.

(** The idle connection with a datagram of two bytes queued ahead of
    snapshot 2. *)
Definition short_then_snapshot : Network :=
  set_udp_socket (datagrams [[Byte.x01; Byte.x00]; snapshot_bytes 2]) idle.

(** The connect command of a version 3 client and its request. *)
Definition ConnectV3 : Command := Connect_Command (connect_interface 3).

Definition hello : @Request ConnectV3 :=
  connect_request (I := connect_interface 3) 50000.

(** The same connect request, over and over. *)
Definition connect_requests (i : N) : AnyRequest :=
  {| any_T := ConnectV3; any_payload := hello |}.

(** A fresh connection with [ready] to read on the stream socket and
    [later] still to come. *)
Definition receiving (ready : list Byte.byte) (later : list (list Byte.byte))
  : Network :=
  fresh (stream ready later) (datagrams []) 50000.

(** The frame a server sends in reply to a connect request. *)
Definition connect_reply (id : Z) (r : Connect.Response) : list Byte.byte :=
  to_bytes (Wire := Header_le) {| command := 0; command_id := id |}
  ++ to_bytes (Wire := ConnectResponse_le) r.

(** The reply to request 0 that accepts the connection at version 3,
    and the one to request 1. *)
Definition accepted : Connect.Response :=
  {| Connect.status := Connect.kSuccess; Connect.version := 3 |}.

Definition reply0 : list Byte.byte := connect_reply 0 accepted.
Definition reply1 : list Byte.byte := connect_reply 1 accepted.

(** The reply to request 0 of a version 4 server that turns the client
    down, and one with a status the client does not know. *)
Definition rejected : Connect.Response :=
  {| Connect.status := Connect.kIncompatibleLibraryVersion; Connect.version := 4 |}.

Definition garbled : Connect.Response :=
  {| Connect.status := Connect.kOther 9; Connect.version := 3 |}.

(** A handler that keeps a record of the responses it was called with. *)
Definition record_call (r : Connect.Response) (calls : list Connect.Response)
  : list Connect.Response :=
  calls ++ [r].


(** The reply of a server that announces a model library of [declared]
    bytes, followed by the [supplied] bytes it gets to send. *)
Definition library_reply (declared : nat) (supplied : list Byte.byte)
  : list Byte.byte :=
  to_bytes (Wire := Header_le) {| command := 7; command_id := 0 |}
  ++ to_bytes (Wire := LoadResponse_le)
       {| LoadModelLibrary.status := LoadModelLibrary.kSuccess;
          LoadModelLibrary.size := declared |}
  ++ supplied.

Definition empty_disk (can_write : bool) : Storage :=
  {| files := []; writable := can_write |}.

(** The reply of a server that refuses the model library request. *)
Definition library_refusal : list Byte.byte :=
  to_bytes (Wire := Header_le) {| command := 7; command_id := 0 |}
  ++ to_bytes (Wire := LoadResponse_le)
       {| LoadModelLibrary.status := LoadModelLibrary.kOther 1;
          LoadModelLibrary.size := 1024 |}.

(** Storage that holds an older model library and a file of another
    name. *)
Definition used_disk (can_write : bool) : Storage :=
  {| files := [("/tmp/libfranka_model", [Byte.x01]); ("/tmp/other", [Byte.x02])];
     writable := can_write |}.

(** A server that announces four bytes and sends six. *)
Definition four_of_six : Network :=
  receiving []
    [library_reply 4 [Byte.x0a; Byte.x0b; Byte.x0c; Byte.x0d; Byte.x0e; Byte.x0f]].

End LittleEndian.

(** ** The checks of [control_types.h]

    A [double] is a binary64 float and [std::array<double, N>] a list of
    [N] of them.  The checks report failure by throwing
    [std::invalid_argument]. *)

Module ControlTypes.

Import Floats.
Local Open Scope float_scope.

(** What a check comes to: it returns, or throws
    [std::invalid_argument(what)]. *)
Inductive checked : Type :=
| Passed
| invalid_argument (what : string).

(** [array[i]]. *)
Definition elem (array : list float) (i : nat) : float := nth i array 0.

(** [isValidElbow]. *)
Definition isValidElbow (elbow : list float) : bool :=
  (elem elbow 1 =? -1) || (elem elbow 1 =? 1).

(** [kOrthonormalThreshold = 1e-5], as the nearest binary64 value. *)
Definition kOrthonormalThreshold : float := 0x1.4f8b588e368f1p-17.

Section WithPow.

(** [std::pow] of the platform's math library. *)
Variable pow : float -> float -> float.

(** The norm of column [j] and of row [i] of the rotation part, as the
    two loops compute them. *)
Definition column_norm (transform : list float) (j : nat) : float :=
  sqrt (pow (elem transform (j * 4 + 0)) 2 + pow (elem transform (j * 4 + 1)) 2
        + pow (elem transform (j * 4 + 2)) 2).

Definition row_norm (transform : list float) (i : nat) : float :=
  sqrt (pow (elem transform (0 * 4 + i)) 2 + pow (elem transform (1 * 4 + i)) 2
        + pow (elem transform (2 * 4 + i)) 2).

(** [isHomogeneousTransformation]: the test on the last row, then the
    loop over [j] and the loop over [i], each returning [false] at the
    first norm that is off by more than the threshold. *)
Definition isHomogeneousTransformation (transform : list float) : bool :=
  if negb (elem transform 3 =? 0) || negb (elem transform 7 =? 0)
     || negb (elem transform 11 =? 0) || negb (elem transform 15 =? 1)
  then false
  else if existsb (fun j => kOrthonormalThreshold <? abs (column_norm transform j - 1))
            [0; 1; 2]%nat
  then false
  else if existsb (fun i => kOrthonormalThreshold <? abs (row_norm transform i - 1))
            [0; 1; 2]%nat
  then false
  else true.

(** [checkFinite]: [std::all_of] with [std::isfinite]. *)
Definition checkFinite (array : list float) : checked :=
  if negb (forallb is_finite array)
  then invalid_argument "Commanding value is infinite or NaN."
  else Passed.

(** [checkMatrix]. *)
Definition checkMatrix (transform : list float) : checked :=
  match checkFinite transform with
  | invalid_argument what => invalid_argument what
  | Passed =>
      if negb (isHomogeneousTransformation transform)
      then invalid_argument
             "libfranka: Attempt to set invalid transformation in motion generator. Has to be column major!"
      else Passed
  end.

(** [checkElbow]. *)
Definition checkElbow (elbow : list float) : checked :=
  match checkFinite elbow with
  | invalid_argument what => invalid_argument what
  | Passed =>
      if negb (isValidElbow elbow)
      then invalid_argument
             "Invalid elbow configuration given! Only +1 or -1 are allowed for the sign of the 4th joint."
      else Passed
  end.

End WithPow.

(** A math library whose [pow(x, 2)] is the rounded product [x * x]. *)
Definition pow_by_product (x y : float) : float := x * x.

(** An array with NaN down the diagonal of its rotation part. *)
Definition nan_diagonal : list float :=
  [nan; 2; 0; 0;  0; nan; 3; 0;  7; 0; nan; 0;  1; 2; 3; 1].

End ControlTypes.

(** * Properties *)

(** Closes a size comparison on a concrete connection. *)
Ltac by_evaluation := vm_compute; lia.

(** ** Sending requests: the command identifier *)

Section SendRequest.

Context {T : Command}.

Lemma uint32_wrap_succ (z : Z) :
  uint32_wrap (uint32_wrap z + 1) = uint32_wrap (z + 1).
Proof.
  unfold uint32_wrap. now rewrite Z.add_mod_idemp_l.
Qed.

Lemma uint32_wrap_idem (z : Z) : uint32_wrap (uint32_wrap z) = uint32_wrap z.
Proof.
  unfold uint32_wrap. apply Z.mod_mod. unfold uint32_modulus. lia.
Qed.

(** The counter moves on by one whether or not the send goes through. *)
Lemma tcpSendRequest_counter (payload : Request) (n : Network) :
  command_id_ (snd (tcpSendRequest payload n)) = uint32_wrap (command_id_ n + 1).
Proof.
  unfold tcpSendRequest.
  destruct (sendBytes _ _) as [[[]|what] sock]; reflexivity.
Qed.

(** A send that returns, returns the counter's old value and has put
    one buffer on the wire: that header, then the payload. *)
Lemma tcpSendRequest_returns (payload : Request) (n n' : Network) (id : Z) :
  tcpSendRequest payload n = (Ok id, n') ->
  id = command_id_ n /\
  tx_sent (tcp_socket_ n') =
    tx_sent (tcp_socket_ n)
    ++ [to_bytes {| command := kCommand; command_id := id |} ++ to_bytes payload].
Proof.
  unfold tcpSendRequest, sendBytes. cbn.
  destruct (tx_script (tcp_socket_ n)) as [|[what|] script]; cbn;
    intros H; inversion H; subst; cbn; auto.
Qed.

(** With no failure scripted, a send returns and none is scripted
    afterwards. *)
Lemma tcpSendRequest_no_fault (payload : Request) (n : Network) :
  tx_script (tcp_socket_ n) = [] ->
  fst (tcpSendRequest payload n) = Ok (command_id_ n) /\
  tx_script (tcp_socket_ (snd (tcpSendRequest payload n))) = [].
Proof.
  intros H. unfold tcpSendRequest, sendBytes. cbn. rewrite H. cbn. auto.
Qed.

End SendRequest.

Lemma after_sends_0 (requests : N -> AnyRequest) (n : Network) :
  after_sends requests 0 n = n.
Proof. reflexivity. Qed.

Lemma after_sends_succ (requests : N -> AnyRequest) (k : N) (n : Network) :
  after_sends requests (N.succ k) n =
  snd (send_any (requests k) (after_sends requests k n)).
Proof.
  unfold after_sends. now rewrite N.peano_rect_succ.
Qed.

(** After [k] calls the counter stands at its start plus [k], modulo
    [2^32]. *)
Lemma after_sends_counter (requests : N -> AnyRequest) (k : N) (n : Network) :
  uint32_wrap (command_id_ (after_sends requests k n)) =
  uint32_wrap (command_id_ n + Z.of_N k).
Proof.
  induction k as [|k IH] using N.peano_ind.
  - rewrite after_sends_0. now rewrite Z.add_0_r.
  - rewrite after_sends_succ. unfold send_any.
    rewrite tcpSendRequest_counter, uint32_wrap_idem.
    rewrite <- uint32_wrap_succ, IH, uint32_wrap_succ.
    rewrite N2Z.inj_succ. apply (f_equal uint32_wrap). lia.
Qed.

Lemma after_sends_counter_fresh (requests : N -> AnyRequest) (k : N)
    (tcp : StreamSocket) (udp : DatagramSocket) (port : Z) :
  command_id_ (after_sends requests k (fresh tcp udp port)) = uint32_wrap (Z.of_N k).
Proof.
  destruct k as [|p] using N.peano_ind.
  - reflexivity.
  - rewrite after_sends_succ. unfold send_any. rewrite tcpSendRequest_counter.
    rewrite <- uint32_wrap_succ, after_sends_counter, uint32_wrap_succ.
    cbn [fresh command_id_]. rewrite N2Z.inj_succ. apply (f_equal uint32_wrap). lia.
Qed.

Lemma after_sends_no_fault (requests : N -> AnyRequest) (k : N) (n : Network) :
  tx_script (tcp_socket_ n) = [] ->
  tx_script (tcp_socket_ (after_sends requests k n)) = [].
Proof.
  intros H. induction k as [|k IH] using N.peano_ind.
  - now rewrite after_sends_0.
  - rewrite after_sends_succ. now apply tcpSendRequest_no_fault.
Qed.

(** The identifier of call number [k] on a fresh connection. *)
Lemma send_nth_fresh (requests : N -> AnyRequest) (k : N)
    (tcp : StreamSocket) (udp : DatagramSocket) (port : Z) (id : Z) :
  fst (send_nth requests k (fresh tcp udp port)) = Ok id ->
  id = uint32_wrap (Z.of_N k).
Proof.
  unfold send_nth, send_any. intros H.
  destruct (tcpSendRequest _ _) as [r n'] eqn:E. cbn in H. subst r.
  apply tcpSendRequest_returns in E. destruct E as [-> _].
  apply after_sends_counter_fresh.
Qed.

Lemma send_nth_fresh_no_fault (requests : N -> AnyRequest) (k : N)
    (tcp : StreamSocket) (udp : DatagramSocket) (port : Z) :
  tx_script tcp = [] ->
  fst (send_nth requests k (fresh tcp udp port)) = Ok (uint32_wrap (Z.of_N k)).
Proof.
  intros H. unfold send_nth, send_any.
  destruct (tcpSendRequest_no_fault (any_payload (requests k))
              (after_sends requests k (fresh tcp udp port))) as [E _].
  - now apply after_sends_no_fault.
  - rewrite E. f_equal. apply after_sends_counter_fresh.
Qed.

Lemma uint32_wrap_distinct (j k : Z) :
  0 < k - j < uint32_modulus -> uint32_wrap j <> uint32_wrap k.
Proof.
  unfold uint32_wrap, uint32_modulus. intros H E.
  assert (D : (k - j) mod 2 ^ 32 = 0).
  { rewrite Zminus_mod, E, Z.sub_diag. reflexivity. }
  rewrite Z.mod_small in D; lia.
Qed.


(** C2, as the code has it: on a fresh connection the call number [k]
    (from 0) is given the identifier [k mod 2^32]; so each identifier is
    the one before plus 1 modulo [2^32] (plus 1 exactly until the
    counter wraps), and two calls fewer than [2^32] apart never share
    an identifier. *)
Theorem command_ids_consecutive_modulo (requests : N -> AnyRequest)
    (tcp : StreamSocket) (udp : DatagramSocket) (port : Z) :
  (forall k id,
      fst (send_nth requests k (fresh tcp udp port)) = Ok id ->
      id = Z.of_N k mod 2 ^ 32) /\
  (forall k id id',
      fst (send_nth requests k (fresh tcp udp port)) = Ok id ->
      fst (send_nth requests (N.succ k) (fresh tcp udp port)) = Ok id' ->
      id' = (id + 1) mod 2 ^ 32 /\ (id < 2 ^ 32 - 1 -> id' = id + 1)) /\
  (forall j k idj idk,
      (j < k < j + 2 ^ 32)%N ->
      fst (send_nth requests j (fresh tcp udp port)) = Ok idj ->
      fst (send_nth requests k (fresh tcp udp port)) = Ok idk ->
      idj <> idk).
Proof.
  split; [|split].
  - intros k id H. now apply send_nth_fresh in H.
  - intros k id id' H H'.
    apply send_nth_fresh in H. apply send_nth_fresh in H'. subst.
    rewrite N2Z.inj_succ. unfold uint32_wrap, uint32_modulus. split.
    + rewrite Z.add_mod_idemp_l by lia. reflexivity.
    + intros Hlt. unfold Z.succ.
      rewrite <- (Z.add_mod_idemp_l (Z.of_N k)) by lia.
      apply Z.mod_small.
      pose proof (Z.mod_pos_bound (Z.of_N k) (2 ^ 32)). lia.
  - intros j k idj idk Hjk Hj Hk.
    apply send_nth_fresh in Hj. apply send_nth_fresh in Hk. subst.
    apply uint32_wrap_distinct. unfold uint32_modulus. lia.
Qed.



(** The hypotheses of the theorem hold for the first two calls on a
    fresh connection. *)
Lemma command_ids_consecutive_witness :
  fst (send_nth LittleEndian.connect_requests 0 LittleEndian.idle) = Ok 0 /\
  fst (send_nth LittleEndian.connect_requests 1 LittleEndian.idle) = Ok 1 /\
  0 = Z.of_N 0 mod 2 ^ 32 /\
  (1 = (0 + 1) mod 2 ^ 32 /\ (0 < 2 ^ 32 - 1 -> 1 = 0 + 1)) /\
  0 <> 1.
Proof.
  destruct (command_ids_consecutive_modulo LittleEndian.connect_requests
              (LittleEndian.stream [] []) (LittleEndian.datagrams []) 50000)
    as [nth [next distinct]].
  split; [reflexivity|]. split; [reflexivity|]. split; [|split].
  - apply (nth 0%N 0). reflexivity.
  - apply (next 0%N 0 1); reflexivity.
  - apply (distinct 0%N 1%N 0 1); [lia | reflexivity | reflexivity].
Defined.

(** C2 as the spec words it fails once the 32-bit counter has gone
    round: call number [2^32 - 1] is given 4294967295, the call after it
    is given 0 (not 4294967296), the identifier the very first call
    had. *)
Lemma command_id_reused_after_wrap :
  fst (send_nth LittleEndian.connect_requests 4294967295 LittleEndian.idle)
  = Ok 4294967295 /\
  fst (send_nth LittleEndian.connect_requests 4294967296 LittleEndian.idle)
  = Ok 0 /\
  fst (send_nth LittleEndian.connect_requests 0 LittleEndian.idle)
  = Ok 0.
Proof.
  unfold LittleEndian.idle.
  split; [|split].
  - exact (send_nth_fresh_no_fault LittleEndian.connect_requests 4294967295
             (LittleEndian.stream [] []) (LittleEndian.datagrams []) 50000 eq_refl).
  - exact (send_nth_fresh_no_fault LittleEndian.connect_requests 4294967296
             (LittleEndian.stream [] []) (LittleEndian.datagrams []) 50000 eq_refl).
  - reflexivity.
Qed.

(** ** The streaming channel *)

Section Streaming.

Context {A : Type} {W : Wire A}.

(** A datagram of exactly the expected size at the head of the queue is
    what the receive returns; the queue loses that one datagram. *)
Lemma udpBlockingReceiveUnsafe_head (d : list Byte.byte)
    (queue : list (list Byte.byte)) (n : Network) :
  dg_queue (udp_socket_ n) = d :: queue ->
  length d = sizeof A ->
  udpBlockingReceiveUnsafe n =
  (Ok (of_bytes d),
   set_udp_socket {| dg_queue := queue; dg_later := dg_later (udp_socket_ n) |} n).
Proof.
  intros Hq Hlen. unfold udpBlockingReceiveUnsafe, receiveFrom. rewrite Hq.
  rewrite <- Hlen, firstn_all, Nat.eqb_refl. reflexivity.
Qed.

(** A datagram shorter than the expected size is a protocol failure. *)
Lemma udpBlockingReceiveUnsafe_short (d : list Byte.byte)
    (queue : list (list Byte.byte)) (n : Network) :
  dg_queue (udp_socket_ n) = d :: queue ->
  (length d < sizeof A)%nat ->
  fst (udpBlockingReceiveUnsafe n) =
  Throw (ProtocolException "libfranka: incorrect object size").
Proof.
  intros Hq Hlen. unfold udpBlockingReceiveUnsafe, receiveFrom. rewrite Hq.
  rewrite firstn_all2 by lia.
  destruct (Nat.eqb_spec (length d) (sizeof A)) as [E|E]; [lia | reflexivity].
Qed.

(** A datagram longer than the expected size is cut to that size by the
    socket, passes the size test, and is returned as a snapshot. *)
Lemma udpBlockingReceiveUnsafe_long (d : list Byte.byte)
    (queue : list (list Byte.byte)) (n : Network) :
  dg_queue (udp_socket_ n) = d :: queue ->
  (sizeof A < length d)%nat ->
  fst (udpBlockingReceiveUnsafe n) = Ok (of_bytes (firstn (sizeof A) d)).
Proof.
  intros Hq Hlen. unfold udpBlockingReceiveUnsafe, receiveFrom. rewrite Hq.
  rewrite length_firstn, Nat.min_l by lia.
  rewrite Nat.eqb_refl. reflexivity.
Qed.

End Streaming.

(** C9: when no complete datagram waits at the socket (the queue is
    empty, or the datagram at its head is shorter than the object),
    [udpReceive] returns [false] at once, raises nothing, reads nothing
    off the socket and leaves [*data] as it was. *)
Theorem udpReceive_nothing_queued (A : Type) (W : Wire A) (data : A) (n : Network) :
  (0 < sizeof A)%nat ->
  (forall d queue, dg_queue (udp_socket_ n) = d :: queue -> (length d < sizeof A)%nat) ->
  udpReceive data n = (Ok (false, data), n).
Proof.
  intros Hpos Hhead. unfold udpReceive, udp_available.
  destruct (dg_queue (udp_socket_ n)) as [|d queue] eqn:Hq.
  - destruct (Nat.leb_spec (sizeof A) 0); [lia | reflexivity].
  - specialize (Hhead d queue eq_refl).
    destruct (Nat.leb_spec (sizeof A) (length d)); [lia | reflexivity].
Qed.

(** The hypotheses hold on a connection whose datagram queue is empty. *)
Lemma udpReceive_nothing_queued_witness :
  (0 < @sizeof _ LittleEndian.Snapshot_le)%nat /\
  dg_queue (udp_socket_ LittleEndian.idle) = [] /\
  udpReceive (W := LittleEndian.Snapshot_le)
    {| LittleEndian.message_id := 7 |} LittleEndian.idle
  = (Ok (false, {| LittleEndian.message_id := 7 |}), LittleEndian.idle).
Proof.
  split; [cbn; lia|]. split; [reflexivity|].
  apply (udpReceive_nothing_queued LittleEndian.Snapshot LittleEndian.Snapshot_le).
  - cbn; lia.
  - intros d queue H. discriminate H.
Defined.

(** C4, as the code has it: with snapshots queued at the socket, a
    receive ([udpReceive] as well as [udpBlockingReceive]) returns the
    one that arrived first and takes only that one off the queue; the
    later ones stay queued, in order, for the receives that follow. *)
Theorem udp_receive_returns_oldest_queued (A : Type) (W : Wire A) (data : A)
    (d : list Byte.byte) (queue : list (list Byte.byte)) (n : Network) :
  dg_queue (udp_socket_ n) = d :: queue ->
  length d = sizeof A ->
  let n' := set_udp_socket {| dg_queue := queue;
                              dg_later := dg_later (udp_socket_ n) |} n in
  udpReceive data n = (Ok (true, of_bytes d), n') /\
  udpBlockingReceive n = (Ok (of_bytes d), n').
Proof.
  intros Hq Hlen n'. split.
  - unfold udpReceive, udp_available. rewrite Hq, Hlen, Nat.leb_refl.
    now rewrite (udpBlockingReceiveUnsafe_head d queue n Hq Hlen).
  - unfold udpBlockingReceive.
    now rewrite (udpBlockingReceiveUnsafe_head d queue n Hq Hlen).
Qed.

(** The hypotheses hold with two snapshots queued. *)
Lemma udp_receive_returns_oldest_witness :
  dg_queue (udp_socket_ LittleEndian.two_queued)
  = [LittleEndian.snapshot_bytes 1; LittleEndian.snapshot_bytes 2] /\
  length (LittleEndian.snapshot_bytes 1) = @sizeof _ LittleEndian.Snapshot_le /\
  udpReceive (W := LittleEndian.Snapshot_le)
    {| LittleEndian.message_id := 0 |} LittleEndian.two_queued
  = (Ok (true, {| LittleEndian.message_id := 1 |}),
     set_udp_socket (LittleEndian.datagrams [LittleEndian.snapshot_bytes 2])
       LittleEndian.two_queued).
Proof.
  split; [reflexivity|]. split; [reflexivity|].
  exact (proj1 (udp_receive_returns_oldest_queued LittleEndian.Snapshot
                  LittleEndian.Snapshot_le {| LittleEndian.message_id := 0 |}
                  (LittleEndian.snapshot_bytes 1) [LittleEndian.snapshot_bytes 2]
                  LittleEndian.two_queued eq_refl eq_refl)).
Defined.

(** C4 as the spec words it fails: with snapshot 1 queued before
    snapshot 2, both receives return snapshot 1, not the most recent
    one, and snapshot 2 is still queued afterwards. *)
Lemma udp_receive_not_most_recent :
  udpReceive (W := LittleEndian.Snapshot_le)
    {| LittleEndian.message_id := 0 |} LittleEndian.two_queued
  = (Ok (true, {| LittleEndian.message_id := 1 |}),
     set_udp_socket (LittleEndian.datagrams [LittleEndian.snapshot_bytes 2])
       LittleEndian.two_queued) /\
  udpBlockingReceive (W := LittleEndian.Snapshot_le) LittleEndian.two_queued
  = (Ok {| LittleEndian.message_id := 1 |},
     set_udp_socket (LittleEndian.datagrams [LittleEndian.snapshot_bytes 2])
       LittleEndian.two_queued) /\
  last (dg_queue (udp_socket_ LittleEndian.two_queued)) []
  = LittleEndian.snapshot_bytes 2 /\
  of_bytes (Wire := LittleEndian.Snapshot_le) (LittleEndian.snapshot_bytes 2)
  = {| LittleEndian.message_id := 2 |}.
Proof.
  repeat split; reflexivity.
Qed.

(** C7 at a datagram one byte too long: the five bytes 01 00 00 00 ff
    come back from [udpBlockingReceive] as the four-byte snapshot 1, cut
    short, with no [ProtocolException]. *)
Theorem udpBlockingReceive_truncates_long_datagram :
  udpBlockingReceive (W := LittleEndian.Snapshot_le) LittleEndian.long_queued
  = (Ok {| LittleEndian.message_id := 1 |},
     set_udp_socket (LittleEndian.datagrams []) LittleEndian.long_queued).
Proof.
  reflexivity.
Qed.

(** ** The reliable channel: receiving *)

Lemma rx_only_refl (n : Network) : rx_only n n.
Proof. repeat split. Qed.

Lemma rx_only_trans (n1 n2 n3 : Network) :
  rx_only n1 n2 -> rx_only n2 n3 -> rx_only n1 n3.
Proof.
  unfold rx_only. intros (a & b & c & d & e) (a' & b' & c' & d' & e').
  repeat split; congruence.
Qed.

Lemma await_bytes_stream (size : nat) (later : list (list Byte.byte)) :
  forall ready ready' later',
    await_bytes size ready later = (ready', later') ->
    ready' ++ concat later' = ready ++ concat later /\
    ((size <= length ready')%nat \/ later' = []).
Proof.
  induction later as [|chunk later IH]; intros ready ready' later' H; cbn in H.
  - inversion H; subst. auto.
  - destruct (Nat.leb_spec size (length ready)) as [Hle|Hgt].
    + inversion H; subst. auto.
    + apply IH in H. destruct H as [H1 H2]. split; [|exact H2].
      rewrite H1. cbn. now rewrite app_assoc.
Qed.

(** Waiting one poll interval changes neither the stream nor anything
    else. *)
Lemma tcp_poll_wait_stream (s : StreamSocket) :
  rx_stream (tcp_poll_wait s) = rx_stream s /\
  tx_sent (tcp_poll_wait s) = tx_sent s /\
  tx_script (tcp_poll_wait s) = tx_script s.
Proof.
  unfold tcp_poll_wait, rx_stream.
  destruct (rx_later s) as [|chunk later] eqn:E; cbn; rewrite ?E; cbn.
  - auto.
  - now rewrite app_assoc.
Qed.

Lemma tcpReceiveIntoBufferUnsafe_ok (read_size : nat) (n : Network) :
  (read_size <= length (rx_stream (tcp_socket_ n)))%nat ->
  exists n',
    tcpReceiveIntoBufferUnsafe read_size n
    = (Ok (firstn read_size (rx_stream (tcp_socket_ n))), n') /\
    rx_stream (tcp_socket_ n') = skipn read_size (rx_stream (tcp_socket_ n)) /\
    rx_only n n'.
Proof.
  intros Hlen. unfold tcpReceiveIntoBufferUnsafe, rx_stream in *.
  destruct (await_bytes read_size (rx_ready (tcp_socket_ n)) (rx_later (tcp_socket_ n)))
    as [ready later] eqn:E.
  apply await_bytes_stream in E. destruct E as [Hstream Hdone].
  rewrite <- Hstream in *.
  assert (Hready : (read_size <= length ready)%nat).
  { destruct Hdone as [H|H]; [exact H|].
    subst later. cbn in Hlen. now rewrite app_nil_r in Hlen. }
  destruct (Nat.leb_spec read_size (length ready)) as [_|Hgt]; [|lia].
  eexists. split; [|split].
  - rewrite firstn_app.
    replace (read_size - length ready)%nat with 0%nat by lia.
    cbn. now rewrite app_nil_r.
  - cbn. rewrite skipn_app.
    replace (read_size - length ready)%nat with 0%nat by lia.
    reflexivity.
  - repeat split.
Qed.

Lemma tcpReceiveIntoBufferUnsafe_short (read_size : nat) (n : Network) :
  (length (rx_stream (tcp_socket_ n)) < read_size)%nat ->
  fst (tcpReceiveIntoBufferUnsafe read_size n) = Throw (NetworkException short_read_what).
Proof.
  intros Hlen. unfold tcpReceiveIntoBufferUnsafe, rx_stream in *.
  destruct (await_bytes read_size (rx_ready (tcp_socket_ n)) (rx_later (tcp_socket_ n)))
    as [ready later] eqn:E.
  apply await_bytes_stream in E. destruct E as [Hstream _].
  rewrite <- Hstream, length_app in Hlen.
  destruct (Nat.leb_spec read_size (length ready)) as [Hle|_]; [lia | reflexivity].
Qed.

Section Peek.

Context {A : Type} {W : Wire A}.

Lemma tcpPeekHeaderUnsafe_none (n : Network) :
  (length (rx_ready (tcp_socket_ n)) < sizeof A)%nat ->
  tcpPeekHeaderUnsafe (A := A) n = (Ok None, n).
Proof.
  intros H. unfold tcpPeekHeaderUnsafe, tcp_available.
  destruct (Nat.leb_spec (sizeof A) (length (rx_ready (tcp_socket_ n)))); [lia|].
  now rewrite andb_false_r.
Qed.

Lemma tcpPeekHeaderUnsafe_some (n : Network) :
  (0 < sizeof A)%nat ->
  (sizeof A <= length (rx_ready (tcp_socket_ n)))%nat ->
  tcpPeekHeaderUnsafe (A := A) n
  = (Ok (Some (of_bytes (firstn (sizeof A) (rx_ready (tcp_socket_ n))))), n).
Proof.
  intros Hpos H.
  unfold tcpPeekHeaderUnsafe, tcp_available, tcp_poll_now, receiveBytes_peek.
  destruct (Nat.leb_spec (sizeof A) (length (rx_ready (tcp_socket_ n)))); [|lia].
  destruct (Nat.eqb_spec (length (rx_ready (tcp_socket_ n))) 0); [lia|]. cbn.
  rewrite length_firstn, Nat.min_l by lia.
  now rewrite Nat.eqb_refl.
Qed.

(** A peek never changes the connection, and what it shows is the head
    of what is ready. *)
Lemma tcpPeekHeaderUnsafe_cases (n : Network) :
  tcpPeekHeaderUnsafe (A := A) n = (Ok None, n) \/
  ((sizeof A <= length (rx_ready (tcp_socket_ n)))%nat /\
   tcpPeekHeaderUnsafe (A := A) n
   = (Ok (Some (of_bytes (firstn (sizeof A) (rx_ready (tcp_socket_ n))))), n)).
Proof.
  unfold tcpPeekHeaderUnsafe, tcp_available, receiveBytes_peek.
  destruct (tcp_poll_now (tcp_socket_ n)); cbn; [|now left].
  destruct (Nat.leb_spec (sizeof A) (length (rx_ready (tcp_socket_ n)))); [|now left].
  right. split; [assumption|].
  rewrite length_firstn, Nat.min_l by lia.
  now rewrite Nat.eqb_refl.
Qed.

End Peek.

Section ReceiveResponse.

Context {T : Command}.

Lemma firstn_ready_stream (k : nat) (s : StreamSocket) :
  (k <= length (rx_ready s))%nat ->
  firstn k (rx_ready s) = firstn k (rx_stream s).
Proof.
  intros H. unfold rx_stream. rewrite firstn_app.
  replace (k - length (rx_ready s))%nat with 0%nat by lia.
  cbn. now rewrite app_nil_r.
Qed.

Lemma response_payload_of_frame (stream : list Byte.byte) :
  response_payload (firstn sizeof_response_frame stream)
  = of_bytes (firstn (sizeof Response) (skipn (sizeof Header) stream)).
Proof.
  unfold response_payload, sizeof_response_frame.
  rewrite skipn_firstn_comm. f_equal. f_equal. lia.
Qed.

Lemma header_matches_true (id : Z) (h : Header) :
  command h = kCommand -> command_id h = id -> header_matches id (Some h) = true.
Proof.
  intros H1 H2. cbn. now rewrite H1, H2, !Z.eqb_refl.
Qed.

Lemma header_matches_false (id : Z) (h : Header) :
  command h <> kCommand \/ command_id h <> id -> header_matches id (Some h) = false.
Proof.
  intros H. cbn. apply andb_false_iff.
  destruct H as [H|H]; [left|right]; now apply Z.eqb_neq.
Qed.

(** C1: one call of [tcpReceiveResponse] with the expected identifier
    [id].  With no complete header ready it returns [false] and the
    connection is as before; with a complete header ready whose command
    kind or identifier differs it returns [false] and the connection is
    as before, the frame still all there; with a header ready that
    matches both, and the rest of the frame arriving, it takes exactly
    the header and payload bytes of that frame off the stream, applies
    the handler once, to the payload, and returns [true]. *)
Theorem tcpReceiveResponse_three_cases (S : Type) (id : Z)
    (handler : Response -> S -> S) (caller : S) (n : Network) :
  (0 < sizeof Header)%nat ->
  ((length (rx_ready (tcp_socket_ n)) < sizeof Header)%nat ->
   tcpReceiveResponse id handler caller n = (Ok (false, caller), n)) /\
  ((sizeof Header <= length (rx_ready (tcp_socket_ n)))%nat ->
   command (head_header n) <> kCommand \/ command_id (head_header n) <> id ->
   tcpReceiveResponse id handler caller n = (Ok (false, caller), n)) /\
  ((sizeof Header <= length (rx_ready (tcp_socket_ n)))%nat ->
   command (head_header n) = kCommand ->
   command_id (head_header n) = id ->
   (sizeof_response_frame <= length (rx_stream (tcp_socket_ n)))%nat ->
   exists n',
     tcpReceiveResponse id handler caller n
     = (Ok (true, handler (head_payload n) caller), n') /\
     rx_stream (tcp_socket_ n')
     = skipn sizeof_response_frame (rx_stream (tcp_socket_ n)) /\
     rx_only n n').
Proof.
  intros Hpos. unfold tcpReceiveResponse, head_header. split; [|split].
  - intros Hshort. now rewrite tcpPeekHeaderUnsafe_none.
  - intros Hready Hdiff.
    rewrite tcpPeekHeaderUnsafe_some by assumption.
    rewrite firstn_ready_stream by assumption.
    now rewrite header_matches_false.
  - intros Hready Hcmd Hid Hframe.
    rewrite tcpPeekHeaderUnsafe_some by assumption.
    rewrite firstn_ready_stream by assumption.
    rewrite header_matches_true by assumption. cbn.
    destruct (tcpReceiveIntoBufferUnsafe_ok sizeof_response_frame n Hframe)
      as (n' & Hrecv & Hstream & Hrest).
    exists n'. rewrite Hrecv, response_payload_of_frame. auto.
Qed.

Lemma polled_stream (n : Network) :
  rx_stream (tcp_socket_ (polled n)) = rx_stream (tcp_socket_ n) /\ rx_only n (polled n).
Proof.
  unfold polled, rx_only. cbn.
  destruct (tcp_poll_wait_stream (tcp_socket_ n)) as (a & b & c).
  repeat split; assumption.
Qed.

Lemma polled_later (n : Network) :
  rx_later (tcp_socket_ n) = [] /\ polled n = n /\
    rx_ready (tcp_socket_ n) = rx_stream (tcp_socket_ n)
  \/ (S (length (rx_later (tcp_socket_ (polled n))))
      = length (rx_later (tcp_socket_ n))).
Proof.
  unfold polled, tcp_poll_wait, rx_stream.
  destruct n as [[ready later sent script] udp port cid]. cbn.
  destruct later as [|chunk later]; cbn.
  - left. now rewrite app_nil_r.
  - now right.
Qed.

(** A matching frame at the head of the stream is returned once enough
    iterations are granted for its header to have arrived. *)
Lemma tcpBlockingReceiveResponse_returns (id : Z) (fuel : nat) :
  forall n,
    (0 < sizeof Header)%nat ->
    (sizeof_response_frame <= length (rx_stream (tcp_socket_ n)))%nat ->
    command (head_header n) = kCommand ->
    command_id (head_header n) = id ->
    (length (rx_later (tcp_socket_ n)) < fuel)%nat ->
    exists n',
      tcpBlockingReceiveResponse fuel id n = (Done (Ok (head_payload n)), n') /\
      rx_stream (tcp_socket_ n')
      = skipn sizeof_response_frame (rx_stream (tcp_socket_ n)) /\
      rx_only n n'.
Proof.
  induction fuel as [|fuel IH]; intros n Hpos Hframe Hcmd Hid Hfuel; [lia|].
  cbn [tcpBlockingReceiveResponse].
  destruct (polled_stream n) as [Hstream Hrest].
  assert (Hsize : (sizeof Header <= length (rx_stream (tcp_socket_ n)))%nat)
    by (unfold sizeof_response_frame in Hframe; lia).
  destruct (Nat.le_gt_cases (sizeof Header) (length (rx_ready (tcp_socket_ (polled n)))))
    as [Hready|Hnot].
  - rewrite tcpPeekHeaderUnsafe_some by assumption.
    rewrite firstn_ready_stream, Hstream by assumption.
    fold (head_header n). rewrite header_matches_true by assumption.
    destruct (tcpReceiveIntoBufferUnsafe_ok sizeof_response_frame (polled n))
      as (n' & Hrecv & Hstream' & Hrest'); [now rewrite Hstream|].
    exists n'. rewrite Hrecv, response_payload_of_frame, Hstream.
    split; [reflexivity|]. split; [now rewrite Hstream', Hstream|].
    eapply rx_only_trans; eassumption.
  - rewrite tcpPeekHeaderUnsafe_none by assumption. cbn [header_matches].
    destruct (polled_later n) as [(_ & Hsame & Hall)|Hless].
    + rewrite Hsame, Hall in Hnot. lia.
    + destruct (IH (polled n)) as (n' & Hrun & Hstream' & Hrest');
        unfold head_header; rewrite ?Hstream; try assumption; try lia.
      exists n'. unfold head_payload in *. rewrite Hstream in *.
      split; [exact Hrun|]. split; [exact Hstream'|].
      eapply rx_only_trans; eassumption.
Qed.

(** While the frame at the head of the stream is not the one asked for,
    the loop goes round and takes nothing off the stream. *)
Lemma tcpBlockingReceiveResponse_waits (id : Z) (fuel : nat) :
  forall n,
    (length (rx_stream (tcp_socket_ n)) < sizeof Header)%nat
    \/ command (head_header n) <> kCommand
    \/ command_id (head_header n) <> id ->
    exists n',
      tcpBlockingReceiveResponse fuel id n = (Waiting, n') /\
      rx_stream (tcp_socket_ n') = rx_stream (tcp_socket_ n) /\
      rx_only n n'.
Proof.
  induction fuel as [|fuel IH]; intros n Hhead.
  - exists n. cbn. auto using rx_only_refl.
  - cbn [tcpBlockingReceiveResponse].
    destruct (polled_stream n) as [Hstream Hrest].
    assert (Hnext : exists n',
               tcpBlockingReceiveResponse fuel id (polled n) = (Waiting, n') /\
               rx_stream (tcp_socket_ n') = rx_stream (tcp_socket_ n) /\
               rx_only n n').
    { destruct (IH (polled n)) as (n' & Hrun & Hstream' & Hrest').
      - unfold head_header. now rewrite Hstream.
      - exists n'. split; [exact Hrun|]. split; [now rewrite Hstream', Hstream|].
        eapply rx_only_trans; eassumption. }
    destruct (tcpPeekHeaderUnsafe_cases (A := Header) (polled n)) as [Hpeek|[Hready Hpeek]];
      rewrite Hpeek.
    + exact Hnext.
    + rewrite firstn_ready_stream, Hstream by assumption. fold (head_header n).
      assert (Hlen : (length (rx_ready (tcp_socket_ (polled n)))
                      <= length (rx_stream (tcp_socket_ n)))%nat).
      { rewrite <- Hstream. unfold rx_stream. rewrite length_app. lia. }
      rewrite header_matches_false; [exact Hnext|].
      destruct Hhead as [Hshort|Hdiff]; [lia | exact Hdiff].
Qed.

End ReceiveResponse.

(** The three cases on concrete connections: five bytes of a header
    ready; the complete reply to request 1 ready while request 0 is
    asked for; the header of the reply to request 0 ready and its
    payload still on its way (the handler's record then holds that one
    response). *)
Lemma tcpReceiveResponse_three_cases_witness :
  tcpReceiveResponse (T := LittleEndian.ConnectV3) 0 LittleEndian.record_call []
    (LittleEndian.receiving (firstn 5 LittleEndian.reply0) [])
  = (Ok (false, []), LittleEndian.receiving (firstn 5 LittleEndian.reply0) []) /\
  tcpReceiveResponse (T := LittleEndian.ConnectV3) 0 LittleEndian.record_call []
    (LittleEndian.receiving LittleEndian.reply1 [])
  = (Ok (false, []), LittleEndian.receiving LittleEndian.reply1 []) /\
  exists n',
    tcpReceiveResponse (T := LittleEndian.ConnectV3) 0 LittleEndian.record_call []
      (LittleEndian.receiving (firstn 8 LittleEndian.reply0)
         [skipn 8 LittleEndian.reply0 ++ LittleEndian.reply1])
    = (Ok (true, [LittleEndian.accepted]), n') /\
    rx_stream (tcp_socket_ n') = LittleEndian.reply1 /\
    rx_only (LittleEndian.receiving (firstn 8 LittleEndian.reply0)
               [skipn 8 LittleEndian.reply0 ++ LittleEndian.reply1]) n'.
Proof.
  split; [|split].
  - destruct (tcpReceiveResponse_three_cases (T := LittleEndian.ConnectV3)
                (list Connect.Response) 0 LittleEndian.record_call []
                (LittleEndian.receiving (firstn 5 LittleEndian.reply0) []))
      as (none & _ & _); [by_evaluation|].
    apply none. by_evaluation.
  - destruct (tcpReceiveResponse_three_cases (T := LittleEndian.ConnectV3)
                (list Connect.Response) 0 LittleEndian.record_call []
                (LittleEndian.receiving LittleEndian.reply1 []))
      as (_ & differs & _); [by_evaluation|].
    apply differs; [by_evaluation|].
    right. vm_compute. discriminate.
  - destruct (tcpReceiveResponse_three_cases (T := LittleEndian.ConnectV3)
                (list Connect.Response) 0 LittleEndian.record_call []
                (LittleEndian.receiving (firstn 8 LittleEndian.reply0)
                   [skipn 8 LittleEndian.reply0 ++ LittleEndian.reply1]))
      as (_ & _ & matches); [by_evaluation|].
    apply matches; [by_evaluation | reflexivity | reflexivity | by_evaluation].
Defined.

(** C6: one call of [tcpBlockingReceiveResponse] with the expected
    identifier [id].  When the frame at the head of the stream carries
    the expected command kind and [id] and arrives in full, the call
    returns, once the loop is granted the iterations it takes for the
    header to arrive, exactly that frame's payload, and has taken exactly
    that frame off the stream.  When there is no such header at the head
    of the stream (none complete, or one that differs in kind or
    identifier) the call is still waiting after any number of
    iterations and has taken nothing off the stream. *)
Theorem tcpBlockingReceiveResponse_matching (T : Command) (id : Z) (n : Network) :
  (0 < sizeof Header)%nat ->
  ((sizeof_response_frame <= length (rx_stream (tcp_socket_ n)))%nat ->
   command (head_header n) = kCommand ->
   command_id (head_header n) = id ->
   forall fuel,
     (length (rx_later (tcp_socket_ n)) < fuel)%nat ->
     exists n',
       tcpBlockingReceiveResponse fuel id n = (Done (Ok (head_payload n)), n') /\
       rx_stream (tcp_socket_ n')
       = skipn sizeof_response_frame (rx_stream (tcp_socket_ n)) /\
       rx_only n n') /\
  ((length (rx_stream (tcp_socket_ n)) < sizeof Header)%nat
   \/ command (head_header n) <> kCommand
   \/ command_id (head_header n) <> id ->
   forall fuel,
     exists n',
       tcpBlockingReceiveResponse fuel id n = (Waiting, n') /\
       rx_stream (tcp_socket_ n') = rx_stream (tcp_socket_ n) /\
       rx_only n n').
Proof.
  intros Hpos. split.
  - intros Hframe Hcmd Hid fuel Hfuel.
    now apply tcpBlockingReceiveResponse_returns.
  - intros Hhead fuel. now apply tcpBlockingReceiveResponse_waits.
Qed.

(** The two cases on concrete connections: the reply to request 0
    arriving in two pieces, followed by the reply to request 1; and the
    reply to request 1 at the head while request 0 is asked for. *)
Lemma tcpBlockingReceiveResponse_matching_witness :
  (exists n',
     tcpBlockingReceiveResponse (T := LittleEndian.ConnectV3) 3 0
       (LittleEndian.receiving []
          [firstn 5 LittleEndian.reply0; skipn 5 LittleEndian.reply0 ++ LittleEndian.reply1])
     = (Done (Ok LittleEndian.accepted), n') /\
     rx_stream (tcp_socket_ n') = LittleEndian.reply1 /\
     rx_only (LittleEndian.receiving []
                [firstn 5 LittleEndian.reply0;
                 skipn 5 LittleEndian.reply0 ++ LittleEndian.reply1]) n') /\
  (exists n',
     tcpBlockingReceiveResponse (T := LittleEndian.ConnectV3) 100 0
       (LittleEndian.receiving LittleEndian.reply1 [LittleEndian.reply0])
     = (Waiting, n') /\
     rx_stream (tcp_socket_ n') = LittleEndian.reply1 ++ LittleEndian.reply0 /\
     rx_only (LittleEndian.receiving LittleEndian.reply1 [LittleEndian.reply0]) n').
Proof.
  split.
  - apply (proj1 (tcpBlockingReceiveResponse_matching LittleEndian.ConnectV3 0
                    (LittleEndian.receiving []
                       [firstn 5 LittleEndian.reply0;
                        skipn 5 LittleEndian.reply0 ++ LittleEndian.reply1])
                    ltac:(by_evaluation))).
    + by_evaluation.
    + reflexivity.
    + reflexivity.
    + by_evaluation.
  - apply (proj2 (tcpBlockingReceiveResponse_matching LittleEndian.ConnectV3 0
                    (LittleEndian.receiving LittleEndian.reply1 [LittleEndian.reply0])
                    ltac:(by_evaluation))).
    right. right. vm_compute. discriminate.
Defined.

(** ** Version negotiation *)

Lemma tcpReceiveIntoBufferUnsafe_rx_only (read_size : nat) (n : Network) :
  rx_only n (snd (tcpReceiveIntoBufferUnsafe read_size n)).
Proof.
  unfold tcpReceiveIntoBufferUnsafe.
  destruct (await_bytes _ _ _) as [ready later].
  destruct (read_size <=? length ready)%nat; repeat split.
Qed.

(** Whatever comes of it, a blocking receive leaves what was sent, the
    datagram socket and the counter alone. *)
Lemma tcpBlockingReceiveResponse_rx_only (T : Command) (id : Z) (fuel : nat) :
  forall n, rx_only n (snd (tcpBlockingReceiveResponse fuel id n)).
Proof.
  induction fuel as [|fuel IH]; intros n; cbn [tcpBlockingReceiveResponse].
  - apply rx_only_refl.
  - destruct (polled_stream n) as [_ Hpolled].
    destruct (tcpPeekHeaderUnsafe_cases (A := Header) (polled n)) as [Hpeek|[_ Hpeek]];
      rewrite Hpeek.
    + cbn [header_matches]. eapply rx_only_trans; [exact Hpolled | apply IH].
    + destruct (header_matches id _).
      * pose proof (tcpReceiveIntoBufferUnsafe_rx_only sizeof_response_frame (polled n)) as H.
        destruct (tcpReceiveIntoBufferUnsafe _ _) as [[response|e] n2]; cbn in *;
          eapply rx_only_trans; eassumption.
      * eapply rx_only_trans; [exact Hpolled | apply IH].
Qed.

(** A send that does not fail leaves what there is to read as it was. *)
Lemma tcpSendRequest_sends (T : Command) (payload : Request) (n : Network) :
  hd None (tx_script (tcp_socket_ n)) = None ->
  exists n1,
    tcpSendRequest payload n = (Ok (command_id_ n), n1) /\
    rx_ready (tcp_socket_ n1) = rx_ready (tcp_socket_ n) /\
    rx_later (tcp_socket_ n1) = rx_later (tcp_socket_ n) /\
    tx_sent (tcp_socket_ n1)
    = tx_sent (tcp_socket_ n)
      ++ [to_bytes {| command := kCommand; command_id := command_id_ n |}
          ++ to_bytes payload].
Proof.
  intros H. unfold tcpSendRequest, sendBytes. cbn.
  destruct (tx_script (tcp_socket_ n)) as [|[what|] script]; cbn in *;
    try discriminate; eexists; repeat split.
Qed.

(** C8: the frame [connect] puts on the reliable channel, when the send
    does not fail, is one connect request: a header with the command's
    tag and the next identifier, then the request struct holding the
    interface's protocol version and the port [udpPort()] reports. *)
Theorem connect_request_carries_port_and_version (I : ConnectInterface)
    (kLibraryVersion : Z) (fuel : nat) (ri_version : Z) (network : Network) :
  hd None (tx_script (tcp_socket_ network)) = None ->
  tx_sent (tcp_socket_ (snd (connect kLibraryVersion fuel ri_version network)))
  = tx_sent (tcp_socket_ network)
    ++ [to_bytes (Wire := connect_Header_wire)
          {| command := connect_kCommand; command_id := command_id_ network |}
        ++ to_bytes (Wire := connect_Request_wire)
             {| Connect.request_version := connect_kVersion;
                Connect.udp_port := udp_port_ network |}].
Proof.
  intros Hsend. unfold connect.
  destruct (tcpSendRequest_sends (Connect_Command I)
              (connect_request (udpPort network)) network Hsend)
    as (n1 & Hsent & _ & _ & Htx).
  rewrite Hsent.
  pose proof (tcpBlockingReceiveResponse_rx_only (Connect_Command I)
                (command_id_ network) fuel n1) as (Hkeep & _).
  destruct (tcpBlockingReceiveResponse fuel (command_id_ network) n1)
    as [[[response|e]|] n2]; cbn [snd] in *.
  - destruct (Connect.status response); cbn [snd]; now rewrite Hkeep, Htx.
  - now rewrite Hkeep, Htx.
  - now rewrite Hkeep, Htx.
Qed.

(** A version 3 client bound to port 50000, with the server's reply
    under way: the twelve bytes sent are the header of request 0, then
    version 3 and port 50000. *)
Lemma connect_request_carries_witness :
  hd None (tx_script (tcp_socket_ (LittleEndian.receiving [] [LittleEndian.reply0]))) = None /\
  tx_sent (tcp_socket_
             (snd (connect (I := LittleEndian.connect_interface 3) 3 2 0
                     (LittleEndian.receiving [] [LittleEndian.reply0]))))
  = [[Byte.x00; Byte.x00; Byte.x00; Byte.x00; Byte.x00; Byte.x00; Byte.x00; Byte.x00;
      Byte.x03; Byte.x00; Byte.x50; Byte.xc3]].
Proof.
  split; [reflexivity|].
  exact (connect_request_carries_port_and_version (LittleEndian.connect_interface 3)
           3 2 0 (LittleEndian.receiving [] [LittleEndian.reply0]) eq_refl).
Defined.

Lemma string_app_assoc (a b c : string) :
  ((a ++ b) ++ c = a ++ b ++ c)%string.
Proof.
  induction a as [|ch a IH]; cbn; [reflexivity | now rewrite IH].
Qed.

Lemma string_app_nil_r (a : string) : (a ++ "" = a)%string.
Proof.
  induction a as [|ch a IH]; cbn; [reflexivity | now rewrite IH].
Qed.

Lemma contains_here (needle after : string) :
  contains needle (needle ++ after).
Proof.
  exists ""%string, after. reflexivity.
Qed.

Lemma contains_after (needle before text : string) :
  contains needle text -> contains needle (before ++ text).
Proof.
  intros (b & a & ->). exists (before ++ b)%string, a.
  now rewrite string_app_assoc.
Qed.

(** The message names both versions. *)
Lemma incompatible_version_message_names_both (server_version library_version : Z) :
  contains (decimal server_version)
    (incompatible_version_message server_version library_version) /\
  contains (decimal library_version)
    (incompatible_version_message server_version library_version).
Proof.
  unfold incompatible_version_message. split.
  - do 3 apply contains_after. apply contains_here.
  - do 6 apply contains_after.
    rewrite <- (string_app_nil_r (decimal library_version)) at 2.
    apply contains_here.
Qed.

(** C3: [connect] and the reply to its request.  With the send going
    through and the reply frame (the tag of the command, the identifier
    just sent) arriving in full at the head of the stream, [connect]
    comes to an end once the loop is granted the iterations it takes,
    and what it does is settled by the status in the reply: on
    [kSuccess] it returns normally with the reply's version stored in
    [*ri_version]; on [kIncompatibleLibraryVersion] it throws an
    [IncompatibleVersionException] whose text has the decimal numerals of
    both the server's and the library's version in it, [*ri_version]
    untouched; on any other status it throws a [ProtocolException].  For
    library version 3 and server version 4 the text has "3" and "4" in
    it. *)
Theorem connect_three_outcomes (I : ConnectInterface) (kLibraryVersion : Z)
    (fuel : nat) (ri_version : Z) (network : Network) :
  (0 < @sizeof Header connect_Header_wire)%nat ->
  hd None (tx_script (tcp_socket_ network)) = None ->
  (sizeof_response_frame (T := Connect_Command I)
   <= length (rx_stream (tcp_socket_ network)))%nat ->
  command (head_header (T := Connect_Command I) network) = connect_kCommand ->
  command_id (head_header (T := Connect_Command I) network) = command_id_ network ->
  (length (rx_later (tcp_socket_ network)) < fuel)%nat ->
  let reply := head_payload (T := Connect_Command I) network in
  let outcome := fst (connect kLibraryVersion fuel ri_version network) in
  (Connect.status reply = Connect.kSuccess ->
   outcome = (Done (Ok tt), Connect.version reply)) /\
  (Connect.status reply = Connect.kIncompatibleLibraryVersion ->
   outcome = (Done (Throw (IncompatibleVersionException
                (incompatible_version_message (Connect.version reply) kLibraryVersion))),
              ri_version) /\
   contains (decimal (Connect.version reply))
     (incompatible_version_message (Connect.version reply) kLibraryVersion) /\
   contains (decimal kLibraryVersion)
     (incompatible_version_message (Connect.version reply) kLibraryVersion)) /\
  (forall raw,
      Connect.status reply = Connect.kOther raw ->
      outcome = (Done (Throw (ProtocolException
                   "libfranka gripper: protocol error during gripper connection attempt")),
                 ri_version)) /\
  contains "3" (incompatible_version_message 4 3) /\
  contains "4" (incompatible_version_message 4 3).
Proof.
  intros Hpos Hsend Hframe Hcmd Hid Hfuel reply outcome.
  subst reply outcome. unfold connect.
  destruct (tcpSendRequest_sends (Connect_Command I)
              (connect_request (udpPort network)) network Hsend)
    as (n1 & Hsent & Hready & Hlater & _).
  rewrite Hsent.
  assert (Hstream : rx_stream (tcp_socket_ n1) = rx_stream (tcp_socket_ network))
    by (unfold rx_stream; now rewrite Hready, Hlater).
  destruct (tcpBlockingReceiveResponse_returns (T := Connect_Command I)
              (command_id_ network) fuel n1) as (n2 & Hrun & _ & _);
    unfold head_header; rewrite ?Hstream, ?Hlater; try assumption.
  rewrite Hrun. unfold head_payload. rewrite Hstream.
  split; [|split; [|split]].
  - intros ->. reflexivity.
  - intros ->. split; [reflexivity|].
    apply incompatible_version_message_names_both.
  - intros raw ->. reflexivity.
  - destruct (incompatible_version_message_names_both 4 3) as [server library].
    split; [exact library | exact server].
Qed.

(** A version 3 client and three replies to its request 0: accepted at
    version 3; turned down by a version 4 server; a status unknown to
    the client. *)
Lemma connect_three_outcomes_witness :
  fst (connect (I := LittleEndian.connect_interface 3) 3 2 0
         (LittleEndian.receiving [] [LittleEndian.reply0]))
  = (Done (Ok tt), 3) /\
  fst (connect (I := LittleEndian.connect_interface 3) 3 2 0
         (LittleEndian.receiving []
            [LittleEndian.connect_reply 0 LittleEndian.rejected]))
  = (Done (Throw (IncompatibleVersionException
            ("libfranka: incompatible library version. " ++ endl
             ++ "Server version: 4" ++ endl ++ "Library version: 3")%string)), 0) /\
  fst (connect (I := LittleEndian.connect_interface 3) 3 2 0
         (LittleEndian.receiving []
            [LittleEndian.connect_reply 0 LittleEndian.garbled]))
  = (Done (Throw (ProtocolException
            "libfranka gripper: protocol error during gripper connection attempt")), 0).
Proof.
  split; [|split].
  - destruct (connect_three_outcomes (LittleEndian.connect_interface 3) 3 2 0
                (LittleEndian.receiving [] [LittleEndian.reply0]))
      as (success & _);
      [by_evaluation | reflexivity | by_evaluation | reflexivity | reflexivity
       | by_evaluation | ].
    apply success. reflexivity.
  - destruct (connect_three_outcomes (LittleEndian.connect_interface 3) 3 2 0
                (LittleEndian.receiving []
                   [LittleEndian.connect_reply 0 LittleEndian.rejected]))
      as (_ & incompatible & _);
      [by_evaluation | reflexivity | by_evaluation | reflexivity | reflexivity
       | by_evaluation | ].
    destruct incompatible as [thrown _]; [reflexivity|].
    exact thrown.
  - destruct (connect_three_outcomes (LittleEndian.connect_interface 3) 3 2 0
                (LittleEndian.receiving []
                   [LittleEndian.connect_reply 0 LittleEndian.garbled]))
      as (_ & _ & other & _);
      [by_evaluation | reflexivity | by_evaluation | reflexivity | reflexivity
       | by_evaluation | ].
    apply (other 9). reflexivity.
Defined.

(** ** The model library download *)

(** Below [2^31] the cast changes nothing. *)
Lemma read_size_of_small (size : nat) :
  (Z.of_nat size < 2 ^ 31)%Z -> read_size_of size = size.
Proof.
  intros H. unfold read_size_of.
  rewrite (Z.mod_small (Z.of_nat size) (2 ^ 32)) by lia.
  destruct (Z.ltb_spec (Z.of_nat size) (2 ^ 31)) as [_|Hge]; [|lia].
  rewrite Z.mod_small by lia. apply Nat2Z.id.
Qed.

(** A read of exactly the buffer's size leaves the buffer holding what
    was read. *)
Lemma filled_buffer_full (size : nat) (received : list Byte.byte) :
  length received = size -> filled_buffer size received = received.
Proof.
  intros H. unfold filled_buffer. rewrite H, Nat.sub_diag. cbn [repeat].
  rewrite app_nil_r. rewrite <- H. apply firstn_all.
Qed.

(** When the stream ends before the declared number of bytes (fewer
    than [2^31]) has come, the constructor's handler turns the network
    failure of the raw read into the "cannot save" [ModelException];
    nothing is written. *)
Lemma LibraryDownloader_transfer_cut_short (I : LoadModelLibraryInterface)
    (fuel : nat) (path : string) (disk : Storage) (network : Network) :
  (0 < @sizeof Header load_Header_wire)%nat ->
  hd None (tx_script (tcp_socket_ network)) = None ->
  (sizeof_response_frame (T := LoadModelLibrary_Command I)
   <= length (rx_stream (tcp_socket_ network)))%nat ->
  command (head_header (T := LoadModelLibrary_Command I) network) = load_kCommand ->
  command_id (head_header (T := LoadModelLibrary_Command I) network)
  = command_id_ network ->
  (length (rx_later (tcp_socket_ network)) < fuel)%nat ->
  LoadModelLibrary.status (head_payload (T := LoadModelLibrary_Command I) network)
  = LoadModelLibrary.kSuccess ->
  (Z.of_nat (LoadModelLibrary.size
               (head_payload (T := LoadModelLibrary_Command I) network)) < 2 ^ 31)%Z ->
  (length (skipn (sizeof_response_frame (T := LoadModelLibrary_Command I))
             (rx_stream (tcp_socket_ network)))
   < LoadModelLibrary.size (head_payload (T := LoadModelLibrary_Command I) network))%nat ->
  fst (LibraryDownloader fuel path disk network)
  = (Done (Throw (ModelException "libfranka: Cannot save model library.")), disk).
Proof.
  intros Hpos Hsend Hframe Hcmd Hid Hfuel Hstatus Hbound Hshort.
  unfold LibraryDownloader.
  destruct (tcpSendRequest_sends (LoadModelLibrary_Command I)
              {| LoadModelLibrary.architecture := LoadModelLibrary.kX64;
                 LoadModelLibrary.system := LoadModelLibrary.kLinux |} network Hsend)
    as (n1 & Hsent & Hready & Hlater & _).
  rewrite Hsent.
  assert (Hstream : rx_stream (tcp_socket_ n1) = rx_stream (tcp_socket_ network))
    by (unfold rx_stream; now rewrite Hready, Hlater).
  destruct (tcpBlockingReceiveResponse_returns (T := LoadModelLibrary_Command I)
              (command_id_ network) fuel n1) as (n2 & Hrun & Hleft & _);
    unfold head_header; rewrite ?Hstream, ?Hlater; try assumption.
  rewrite Hrun. unfold head_payload in *. rewrite Hstream in *. rewrite Hstatus.
  unfold receive_and_save, tcpReceiveIntoBuffer.
  rewrite read_size_of_small by exact Hbound.
  rewrite <- Hleft in Hshort.
  pose proof (tcpReceiveIntoBufferUnsafe_short _ n2 Hshort) as Hthrow.
  destruct (tcpReceiveIntoBufferUnsafe _ n2) as [[buffer|e] n3]; cbn in Hthrow.
  - discriminate Hthrow.
  - reflexivity.
Qed.

(** C5 at a transfer cut short: the server announces a library of 1024
    bytes and the connection ends after 500 of them.  The constructor
    throws the [ModelException] "Cannot save model library.", not a
    [NetworkException], and writes no file. *)
Theorem LibraryDownloader_network_failure_reported_as_cannot_save :
  fst (LibraryDownloader (I := LittleEndian.load_interface) 2 "/tmp/libfranka_model"
         (LittleEndian.empty_disk true)
         (LittleEndian.receiving []
            [LittleEndian.library_reply 1024 (repeat Byte.x2a 500)]))
  = (Done (Throw (ModelException "libfranka: Cannot save model library.")),
     LittleEndian.empty_disk true).
Proof.
  vm_compute. reflexivity.
Qed.

(** The same announcement honoured in full, onto storage that cannot be
    written: the constructor returns normally and no file exists. *)
Lemma LibraryDownloader_storage_failure_unreported :
  fst (LibraryDownloader (I := LittleEndian.load_interface) 2 "/tmp/libfranka_model"
         (LittleEndian.empty_disk false)
         (LittleEndian.receiving []
            [LittleEndian.library_reply 1024 (repeat Byte.x2a 1024)]))
  = (Done (Ok tt), LittleEndian.empty_disk false).
Proof.
  vm_compute. reflexivity.
Qed.

(** And onto storage that can be written: the 1024 bytes are the file. *)
Lemma LibraryDownloader_saves_declared_bytes :
  fst (LibraryDownloader (I := LittleEndian.load_interface) 2 "/tmp/libfranka_model"
         (LittleEndian.empty_disk true)
         (LittleEndian.receiving []
            [LittleEndian.library_reply 1024 (repeat Byte.x2a 1024)]))
  = (Done (Ok tt),
     {| files := [("/tmp/libfranka_model", repeat Byte.x2a 1024)]; writable := true |}).
Proof.
  vm_compute. reflexivity.
Qed.

(** * Further properties of the transport *)

(** ** What a receive's result says about the stream *)

Lemma header_matches_inv (T : Command) (id : Z) (h : Header) :
  header_matches id (Some h) = true -> command h = kCommand /\ command_id h = id.
Proof.
  cbn. intros H. apply andb_true_iff in H. destruct H as [H1 H2].
  split; now apply Z.eqb_eq.
Qed.

(** A raw read that comes back with bytes found that many on the
    stream. *)
Lemma tcpReceiveIntoBufferUnsafe_inv (read_size : nat) (n n' : Network)
    (buffer : list Byte.byte) :
  tcpReceiveIntoBufferUnsafe read_size n = (Ok buffer, n') ->
  buffer = firstn read_size (rx_stream (tcp_socket_ n)) /\
  rx_stream (tcp_socket_ n') = skipn read_size (rx_stream (tcp_socket_ n)) /\
  rx_only n n'.
Proof.
  intros H.
  destruct (Nat.le_gt_cases read_size (length (rx_stream (tcp_socket_ n)))) as [Hle|Hgt].
  - destruct (tcpReceiveIntoBufferUnsafe_ok read_size n Hle) as (n2 & E & Hs & Hr).
    rewrite E in H. inversion H; subst. auto.
  - apply tcpReceiveIntoBufferUnsafe_short in Hgt. rewrite H in Hgt. discriminate Hgt.
Qed.

(** X1: The return value of [tcpReceiveResponse] tells what happened to the
    stream, whatever state the connection was in: [true] means the frame
    at the head carried the expected command kind and identifier, its
    payload went to the handler, once, and exactly its bytes are gone;
    [false] means the connection is as it was and the handler was not
    called. *)
Theorem tcpReceiveResponse_result_tells (T : Command) (S : Type) (id : Z)
    (handler : Response -> S -> S) (caller caller' : S) (n n' : Network)
    (received : bool) :
  tcpReceiveResponse id handler caller n = (Ok (received, caller'), n') ->
  if received
  then command (head_header n) = kCommand /\
       command_id (head_header n) = id /\
       caller' = handler (head_payload n) caller /\
       rx_stream (tcp_socket_ n')
       = skipn sizeof_response_frame (rx_stream (tcp_socket_ n)) /\
       rx_only n n'
  else n' = n /\ caller' = caller.
Proof.
  unfold tcpReceiveResponse.
  destruct (tcpPeekHeaderUnsafe_cases (A := Header) n) as [Hpeek|[Hready Hpeek]];
    rewrite Hpeek.
  - cbn [header_matches negb]. intros H. inversion H; subst. auto.
  - match goal with
    | |- context [header_matches id ?p] => destruct (header_matches id p) eqn:Hm
    end; cbn [negb].
    + apply header_matches_inv in Hm. rewrite firstn_ready_stream in Hm by assumption.
      destruct (tcpReceiveIntoBufferUnsafe sizeof_response_frame n)
        as [[response|e] n2] eqn:E; intros H; inversion H; subst.
      apply tcpReceiveIntoBufferUnsafe_inv in E. destruct E as (-> & Hs & Hr).
      rewrite response_payload_of_frame. unfold head_header, head_payload. tauto.
    + intros H. inversion H; subst. auto.
Qed.

(** The matching reply ready on the stream: the call returns [true] and
    the handler's record holds that reply. *)
Lemma tcpReceiveResponse_result_tells_witness :
  tcpReceiveResponse (T := LittleEndian.ConnectV3) 0 LittleEndian.record_call []
    (LittleEndian.receiving LittleEndian.reply0 [])
  = (Ok (true, [LittleEndian.accepted]), LittleEndian.receiving [] []) /\
  command (head_header (T := LittleEndian.ConnectV3)
             (LittleEndian.receiving LittleEndian.reply0 [])) = 0 /\
  [LittleEndian.accepted]
  = LittleEndian.record_call
      (head_payload (T := LittleEndian.ConnectV3)
         (LittleEndian.receiving LittleEndian.reply0 [])) [].
Proof.
  split; [reflexivity|].
  destruct (tcpReceiveResponse_result_tells LittleEndian.ConnectV3
              (list Connect.Response) 0 LittleEndian.record_call []
              [LittleEndian.accepted]
              (LittleEndian.receiving LittleEndian.reply0 [])
              (LittleEndian.receiving [] []) true eq_refl)
    as (Hcmd & _ & Hcall & _).
  split; [exact Hcmd | exact Hcall].
Defined.

(** X2: [tcpBlockingReceiveResponse] never hands out anything but the
    payload of a matching frame at the head of the stream: whenever it
    returns a response, after however many iterations, the first frame of
    the stream carried the expected command kind and identifier, the
    response is that frame's payload, and exactly that frame's bytes are
    gone. *)
Theorem tcpBlockingReceiveResponse_result_tells (T : Command) (id : Z) (fuel : nat) :
  forall (n n' : Network) (response : Response),
    tcpBlockingReceiveResponse fuel id n = (Done (Ok response), n') ->
    command (head_header n) = kCommand /\
    command_id (head_header n) = id /\
    response = head_payload n /\
    rx_stream (tcp_socket_ n')
    = skipn sizeof_response_frame (rx_stream (tcp_socket_ n)) /\
    rx_only n n'.
Proof.
  induction fuel as [|fuel IH]; intros n n' response; cbn [tcpBlockingReceiveResponse].
  - discriminate.
  - destruct (polled_stream n) as [Hstream Hpolled].
    assert (Hnext :
              tcpBlockingReceiveResponse fuel id (polled n) = (Done (Ok response), n') ->
              command (head_header n) = kCommand /\
              command_id (head_header n) = id /\
              response = head_payload n /\
              rx_stream (tcp_socket_ n')
              = skipn sizeof_response_frame (rx_stream (tcp_socket_ n)) /\
              rx_only n n').
    { intros H. apply IH in H. unfold head_header, head_payload in *.
      rewrite Hstream in H. destruct H as (a & b & c & d & e).
      repeat split; try assumption.
      all: try (eapply rx_only_trans; [exact Hpolled | exact e]).
      all: apply e. }
    destruct (tcpPeekHeaderUnsafe_cases (A := Header) (polled n)) as [Hpeek|[Hready Hpeek]];
      rewrite Hpeek.
    + cbn [header_matches]. exact Hnext.
    + match goal with
      | |- context [header_matches id ?p] => destruct (header_matches id p) eqn:Hm
      end; [|exact Hnext].
      apply header_matches_inv in Hm.
      rewrite firstn_ready_stream, Hstream in Hm by assumption.
      destruct (tcpReceiveIntoBufferUnsafe sizeof_response_frame (polled n))
        as [[frame|e] n2] eqn:E; intros H; inversion H; subst.
      apply tcpReceiveIntoBufferUnsafe_inv in E. destruct E as (-> & Hs & Hr).
      rewrite response_payload_of_frame, Hstream in *.
      unfold head_header, head_payload.
      repeat split; try tauto.
      all: try (eapply rx_only_trans; [exact Hpolled | exact Hr]).
      all: destruct (rx_only_trans _ _ _ Hpolled Hr) as (a & b & c & d & e); assumption.
Qed.

(** The reply to request 0 arriving in one piece: three iterations are
    more than enough, and the response is the payload at the head. *)
Lemma tcpBlockingReceiveResponse_result_tells_witness :
  tcpBlockingReceiveResponse (T := LittleEndian.ConnectV3) 3 0
    (LittleEndian.receiving [] [LittleEndian.reply0])
  = (Done (Ok LittleEndian.accepted), LittleEndian.receiving [] []) /\
  command_id (head_header (T := LittleEndian.ConnectV3)
                (LittleEndian.receiving [] [LittleEndian.reply0])) = 0 /\
  LittleEndian.accepted
  = head_payload (T := LittleEndian.ConnectV3)
      (LittleEndian.receiving [] [LittleEndian.reply0]).
Proof.
  split; [reflexivity|].
  destruct (tcpBlockingReceiveResponse_result_tells LittleEndian.ConnectV3 0 3
              (LittleEndian.receiving [] [LittleEndian.reply0])
              (LittleEndian.receiving [] []) LittleEndian.accepted eq_refl)
    as (_ & Hid & Hpayload & _).
  split; [exact Hid | exact Hpayload].
Defined.

(** ** Replies taken in order *)

Lemma await_bytes_later (size : nat) (later : list (list Byte.byte)) :
  forall ready ready' later',
    await_bytes size ready later = (ready', later') ->
    (length later' <= length later)%nat.
Proof.
  induction later as [|chunk later IH]; intros ready ready' later' H; cbn in H.
  - inversion H; subst. cbn. lia.
  - destruct (size <=? length ready)%nat.
    + inversion H; subst. cbn. lia.
    + apply IH in H. cbn. lia.
Qed.

Lemma tcpReceiveIntoBufferUnsafe_later (read_size : nat) (n : Network) :
  (length (rx_later (tcp_socket_ (snd (tcpReceiveIntoBufferUnsafe read_size n))))
   <= length (rx_later (tcp_socket_ n)))%nat.
Proof.
  unfold tcpReceiveIntoBufferUnsafe.
  destruct (await_bytes _ _ _) as [ready later] eqn:E.
  apply await_bytes_later in E.
  destruct (read_size <=? length ready)%nat; cbn; lia.
Qed.

Lemma polled_later_le (n : Network) :
  (length (rx_later (tcp_socket_ (polled n))) <= length (rx_later (tcp_socket_ n)))%nat.
Proof.
  destruct (polled_later n) as [(_ & -> & _)|H]; lia.
Qed.

(** No receive adds to what is still in flight. *)
Lemma tcpBlockingReceiveResponse_later (T : Command) (id : Z) (fuel : nat) :
  forall n,
    (length (rx_later (tcp_socket_ (snd (tcpBlockingReceiveResponse fuel id n))))
     <= length (rx_later (tcp_socket_ n)))%nat.
Proof.
  induction fuel as [|fuel IH]; intros n; cbn [tcpBlockingReceiveResponse].
  - cbn. lia.
  - pose proof (polled_later_le n) as Hpolled.
    destruct (tcpPeekHeaderUnsafe_cases (A := Header) (polled n)) as [Hpeek|[_ Hpeek]];
      rewrite Hpeek.
    + cbn [header_matches]. specialize (IH (polled n)). lia.
    + match goal with
      | |- context [header_matches id ?p] => destruct (header_matches id p)
      end.
      * pose proof (tcpReceiveIntoBufferUnsafe_later sizeof_response_frame (polled n)) as H.
        destruct (tcpReceiveIntoBufferUnsafe _ _) as [[frame|e] n2]; cbn in *; lia.
      * specialize (IH (polled n)). lia.
Qed.

Section InOrder.

Context {T : Command}.

(** X3: Two replies one after the other on the stream, to the identifiers
    [a] and [b]: a blocking receive for [a] followed by one for [b]
    returns the first reply's payload and then the second's, and the
    stream has lost exactly the two frames. *)
Theorem replies_received_in_order (a b : Z) (fuel : nat) (n : Network) :
  (0 < sizeof Header)%nat ->
  (2 * sizeof_response_frame <= length (rx_stream (tcp_socket_ n)))%nat ->
  command (head_header n) = kCommand -> command_id (head_header n) = a ->
  command (second_header n) = kCommand -> command_id (second_header n) = b ->
  (length (rx_later (tcp_socket_ n)) < fuel)%nat ->
  exists n1 n2,
    tcpBlockingReceiveResponse fuel a n = (Done (Ok (head_payload n)), n1) /\
    tcpBlockingReceiveResponse fuel b n1 = (Done (Ok (second_payload n)), n2) /\
    rx_stream (tcp_socket_ n2)
    = skipn (2 * sizeof_response_frame) (rx_stream (tcp_socket_ n)) /\
    rx_only n n2.
Proof.
  intros Hpos Hlen Hcmd Ha Hcmd2 Hb Hfuel.
  destruct (tcpBlockingReceiveResponse_returns a fuel n) as (n1 & H1 & Hs1 & Hr1);
    try assumption; try lia.
  pose proof (tcpBlockingReceiveResponse_later T a fuel n) as Hlater.
  rewrite H1 in Hlater. cbn [snd] in Hlater.
  destruct (tcpBlockingReceiveResponse_returns b fuel n1) as (n2 & H2 & Hs2 & Hr2);
    unfold head_header; rewrite ?Hs1; try assumption; try lia.
  { rewrite length_skipn. lia. }
  exists n1, n2. split; [exact H1|]. split.
  - rewrite H2. unfold head_payload, second_payload. now rewrite Hs1.
  - split.
    + rewrite Hs2, Hs1, skipn_skipn. f_equal. lia.
    + eapply rx_only_trans; eassumption.
Qed.

(** X4: Waiting for another identifier loses nothing: with the reply to [a]
    at the head of the stream, a blocking receive for [b], however long
    it is left to wait, is still waiting, and a blocking receive for [a]
    issued afterwards returns that reply's payload. *)
Theorem waiting_for_another_keeps_reply (a b : Z) (patience fuel : nat) (n : Network) :
  (0 < sizeof Header)%nat ->
  (sizeof_response_frame <= length (rx_stream (tcp_socket_ n)))%nat ->
  command (head_header n) = kCommand -> command_id (head_header n) = a ->
  a <> b ->
  (length (rx_later (tcp_socket_ n)) < fuel)%nat ->
  exists n1 n2,
    tcpBlockingReceiveResponse patience b n = (Waiting, n1) /\
    tcpBlockingReceiveResponse fuel a n1 = (Done (Ok (head_payload n)), n2) /\
    rx_stream (tcp_socket_ n2)
    = skipn sizeof_response_frame (rx_stream (tcp_socket_ n)).
Proof.
  intros Hpos Hlen Hcmd Ha Hab Hfuel.
  destruct (tcpBlockingReceiveResponse_waits b patience n) as (n1 & H1 & Hs1 & Hr1).
  { right. right. congruence. }
  pose proof (tcpBlockingReceiveResponse_later T b patience n) as Hlater.
  rewrite H1 in Hlater. cbn [snd] in Hlater.
  destruct (tcpBlockingReceiveResponse_returns a fuel n1) as (n2 & H2 & Hs2 & Hr2);
    unfold head_header; rewrite ?Hs1; try assumption; try lia.
  exists n1, n2. split; [exact H1|]. split.
  - rewrite H2. unfold head_payload. now rewrite Hs1.
  - now rewrite Hs2, Hs1.
Qed.

End InOrder.

(** The replies to requests 0 and 1 arriving together. *)
Lemma replies_received_in_order_witness :
  exists n1 n2,
    tcpBlockingReceiveResponse (T := LittleEndian.ConnectV3) 2 0
      (LittleEndian.receiving [] [LittleEndian.reply0 ++ LittleEndian.reply1])
    = (Done (Ok LittleEndian.accepted), n1) /\
    tcpBlockingReceiveResponse (T := LittleEndian.ConnectV3) 2 1 n1
    = (Done (Ok LittleEndian.accepted), n2) /\
    rx_stream (tcp_socket_ n2) = [] /\
    rx_only (LittleEndian.receiving [] [LittleEndian.reply0 ++ LittleEndian.reply1]) n2.
Proof.
  apply (replies_received_in_order (T := LittleEndian.ConnectV3) 0 1 2
           (LittleEndian.receiving [] [LittleEndian.reply0 ++ LittleEndian.reply1]));
    try reflexivity; by_evaluation.
Defined.

(** The reply to request 0 ready while request 1 is waited for, fifty
    iterations long. *)
Lemma waiting_for_another_keeps_reply_witness :
  exists n1 n2,
    tcpBlockingReceiveResponse (T := LittleEndian.ConnectV3) 50 1
      (LittleEndian.receiving LittleEndian.reply0 [])
    = (Waiting, n1) /\
    tcpBlockingReceiveResponse (T := LittleEndian.ConnectV3) 1 0 n1
    = (Done (Ok LittleEndian.accepted), n2) /\
    rx_stream (tcp_socket_ n2) = [].
Proof.
  apply (waiting_for_another_keeps_reply (T := LittleEndian.ConnectV3) 0 1 50 1
           (LittleEndian.receiving LittleEndian.reply0 []));
    try reflexivity; by_evaluation.
Defined.

(** ** A send that fails *)



(** ** [connect]: what it leaves alone *)

(** X6: [*ri_version] is written on success only: whatever the connection
    holds and however [connect] ends (an exception of the send, of the
    receive or of the status, or still waiting), unless it returns
    normally the variable holds what it held before. *)
Theorem connect_writes_version_on_success_only (I : ConnectInterface)
    (kLibraryVersion : Z) (fuel : nat) (ri_version : Z) (network : Network) :
  fst (fst (connect kLibraryVersion fuel ri_version network)) = Done (Ok tt)
  \/ snd (fst (connect kLibraryVersion fuel ri_version network)) = ri_version.
Proof.
  unfold connect.
  destruct (tcpSendRequest _ network) as [[id|e] n1]; [|now right].
  destruct (tcpBlockingReceiveResponse fuel id n1) as [[[response|e]|] n2];
    try (now right).
  destruct (Connect.status response); cbn; auto.
Qed.

(** X7: [connect] takes exactly one command identifier, however it ends,
    and touches neither the datagram socket nor the port. *)
Theorem connect_takes_one_identifier (I : ConnectInterface)
    (kLibraryVersion : Z) (fuel : nat) (ri_version : Z) (network : Network) :
  command_id_ (snd (connect kLibraryVersion fuel ri_version network))
  = uint32_wrap (command_id_ network + 1) /\
  udp_socket_ (snd (connect kLibraryVersion fuel ri_version network))
  = udp_socket_ network /\
  udp_port_ (snd (connect kLibraryVersion fuel ri_version network))
  = udp_port_ network.
Proof.
  unfold connect.
  pose proof (tcpSendRequest_counter (T := Connect_Command I)
                (connect_request (udpPort network)) network) as Hid.
  assert (Hudp : udp_socket_ (snd (tcpSendRequest (T := Connect_Command I)
                                     (connect_request (udpPort network)) network))
                 = udp_socket_ network
                 /\ udp_port_ (snd (tcpSendRequest (T := Connect_Command I)
                                      (connect_request (udpPort network)) network))
                    = udp_port_ network).
  { unfold tcpSendRequest. destruct (sendBytes _ _) as [[[]|what] sock]; cbn; auto. }
  destruct Hudp as [Hsock Hport].
  destruct (tcpSendRequest _ network) as [[id|e] n1]; cbn [snd] in *; [|tauto].
  pose proof (tcpBlockingReceiveResponse_rx_only (Connect_Command I) id fuel n1)
    as (_ & _ & Hu & Hp & Hc).
  destruct (tcpBlockingReceiveResponse fuel id n1) as [[[response|e]|] n2];
    cbn [snd] in *.
  - destruct (Connect.status response); cbn [snd]; split; try split; congruence.
  - split; try split; congruence.
  - split; try split; congruence.
Qed.

(** ** The model library download, in general *)

Section Download.

Context {I : LoadModelLibraryInterface}.

(** With the reply at the head of the stream and iterations enough, the
    constructor gets as far as the reply, and the connection then has
    the rest of the stream to read. *)
Lemma LibraryDownloader_reply (fuel : nat) (network : Network) :
  (0 < @sizeof Header load_Header_wire)%nat ->
  hd None (tx_script (tcp_socket_ network)) = None ->
  (sizeof_response_frame (T := LoadModelLibrary_Command I)
   <= length (rx_stream (tcp_socket_ network)))%nat ->
  command (head_header (T := LoadModelLibrary_Command I) network) = load_kCommand ->
  command_id (head_header (T := LoadModelLibrary_Command I) network)
  = command_id_ network ->
  (length (rx_later (tcp_socket_ network)) < fuel)%nat ->
  exists n1 n2,
    tcpSendRequest (T := LoadModelLibrary_Command I)
      {| LoadModelLibrary.architecture := LoadModelLibrary.kX64;
         LoadModelLibrary.system := LoadModelLibrary.kLinux |} network
    = (Ok (command_id_ network), n1) /\
    tcpBlockingReceiveResponse (T := LoadModelLibrary_Command I) fuel
      (command_id_ network) n1
    = (Done (Ok (head_payload (T := LoadModelLibrary_Command I) network)), n2) /\
    rx_stream (tcp_socket_ n2) = after_reply network.
Proof.
  intros Hpos Hsend Hframe Hcmd Hid Hfuel.
  destruct (tcpSendRequest_sends (LoadModelLibrary_Command I)
              {| LoadModelLibrary.architecture := LoadModelLibrary.kX64;
                 LoadModelLibrary.system := LoadModelLibrary.kLinux |} network Hsend)
    as (n1 & Hsent & Hready & Hlater & _).
  assert (Hstream : rx_stream (tcp_socket_ n1) = rx_stream (tcp_socket_ network))
    by (unfold rx_stream; now rewrite Hready, Hlater).
  destruct (tcpBlockingReceiveResponse_returns (T := LoadModelLibrary_Command I)
              (command_id_ network) fuel n1) as (n2 & Hrun & Hleft & _);
    unfold head_header; rewrite ?Hstream, ?Hlater; try assumption.
  exists n1, n2. split; [exact Hsent|]. split.
  - rewrite Hrun. unfold head_payload. now rewrite Hstream.
  - rewrite Hleft, Hstream. reflexivity.
Qed.

(** X8: A transfer of fewer than [2^31] declared bytes that completes
    onto storage that can be written: the
    file at [path()] holds exactly the declared number of bytes, the
    ones that followed the reply on the stream, any older file of that
    path is replaced, and what the server sent beyond them is still on
    the stream. *)
Theorem LibraryDownloader_saves_what_was_declared (fuel : nat) (path : string)
    (disk : Storage) (network : Network) :
  (0 < @sizeof Header load_Header_wire)%nat ->
  hd None (tx_script (tcp_socket_ network)) = None ->
  (sizeof_response_frame (T := LoadModelLibrary_Command I)
   <= length (rx_stream (tcp_socket_ network)))%nat ->
  command (head_header (T := LoadModelLibrary_Command I) network) = load_kCommand ->
  command_id (head_header (T := LoadModelLibrary_Command I) network)
  = command_id_ network ->
  (length (rx_later (tcp_socket_ network)) < fuel)%nat ->
  LoadModelLibrary.status (head_payload (T := LoadModelLibrary_Command I) network)
  = LoadModelLibrary.kSuccess ->
  (Z.of_nat (LoadModelLibrary.size
               (head_payload (T := LoadModelLibrary_Command I) network)) < 2 ^ 31)%Z ->
  (LoadModelLibrary.size (head_payload (T := LoadModelLibrary_Command I) network)
   <= length (after_reply network))%nat ->
  writable disk = true ->
  let declared :=
    LoadModelLibrary.size (head_payload (T := LoadModelLibrary_Command I) network) in
  fst (LibraryDownloader fuel path disk network)
  = (Done (Ok tt),
     {| files := (path, firstn declared (after_reply network))
                 :: filter (fun f => negb (String.eqb (fst f) path)) (files disk);
        writable := true |}) /\
  rx_stream (tcp_socket_ (snd (LibraryDownloader fuel path disk network)))
  = skipn declared (after_reply network).
Proof.
  intros Hpos Hsend Hframe Hcmd Hid Hfuel Hstatus Hbound Hsize Hdisk declared.
  destruct (LibraryDownloader_reply fuel network) as (n1 & n2 & H1 & H2 & Hrest);
    try assumption.
  unfold LibraryDownloader. rewrite H1, H2, Hstatus.
  unfold receive_and_save, tcpReceiveIntoBuffer.
  fold declared. rewrite (read_size_of_small declared Hbound).
  destruct (tcpReceiveIntoBufferUnsafe_ok declared n2) as (n3 & H3 & Hs3 & _).
  { now rewrite Hrest. }
  rewrite H3. cbn [fst snd]. unfold ofstream_write.
  rewrite Hdisk, Hs3, Hrest.
  rewrite filled_buffer_full; [auto|].
  rewrite length_firstn. apply Nat.min_l. exact Hsize.
Qed.

(** X9: A transfer of fewer than [2^31] declared bytes that completes
    onto storage that cannot be written: the
    constructor returns normally all the same, with no file written; the
    bytes were read off the stream and are lost. *)
Theorem LibraryDownloader_unwritable_storage_unreported (fuel : nat) (path : string)
    (disk : Storage) (network : Network) :
  (0 < @sizeof Header load_Header_wire)%nat ->
  hd None (tx_script (tcp_socket_ network)) = None ->
  (sizeof_response_frame (T := LoadModelLibrary_Command I)
   <= length (rx_stream (tcp_socket_ network)))%nat ->
  command (head_header (T := LoadModelLibrary_Command I) network) = load_kCommand ->
  command_id (head_header (T := LoadModelLibrary_Command I) network)
  = command_id_ network ->
  (length (rx_later (tcp_socket_ network)) < fuel)%nat ->
  LoadModelLibrary.status (head_payload (T := LoadModelLibrary_Command I) network)
  = LoadModelLibrary.kSuccess ->
  (Z.of_nat (LoadModelLibrary.size
               (head_payload (T := LoadModelLibrary_Command I) network)) < 2 ^ 31)%Z ->
  (LoadModelLibrary.size (head_payload (T := LoadModelLibrary_Command I) network)
   <= length (after_reply network))%nat ->
  writable disk = false ->
  fst (LibraryDownloader fuel path disk network) = (Done (Ok tt), disk) /\
  rx_stream (tcp_socket_ (snd (LibraryDownloader fuel path disk network)))
  = skipn (LoadModelLibrary.size
             (head_payload (T := LoadModelLibrary_Command I) network))
      (after_reply network).
Proof.
  intros Hpos Hsend Hframe Hcmd Hid Hfuel Hstatus Hbound Hsize Hdisk.
  destruct (LibraryDownloader_reply fuel network) as (n1 & n2 & H1 & H2 & Hrest);
    try assumption.
  unfold LibraryDownloader. rewrite H1, H2, Hstatus.
  unfold receive_and_save, tcpReceiveIntoBuffer.
  rewrite (read_size_of_small _ Hbound).
  destruct (tcpReceiveIntoBufferUnsafe_ok
              (LoadModelLibrary.size
                 (head_payload (T := LoadModelLibrary_Command I) network)) n2)
    as (n3 & H3 & Hs3 & _).
  { now rewrite Hrest. }
  rewrite H3. cbn [fst snd]. unfold ofstream_write.
  rewrite Hdisk, Hs3, Hrest. auto.
Qed.

(** X10: A reply whose status is not [kSuccess]: the constructor throws the
    [ModelException] "Server reports error when loading model library.",
    writes nothing, and reads nothing past the reply, whatever size the
    reply declares. *)
Theorem LibraryDownloader_server_error (fuel : nat) (path : string)
    (disk : Storage) (network : Network) (raw : Z) :
  (0 < @sizeof Header load_Header_wire)%nat ->
  hd None (tx_script (tcp_socket_ network)) = None ->
  (sizeof_response_frame (T := LoadModelLibrary_Command I)
   <= length (rx_stream (tcp_socket_ network)))%nat ->
  command (head_header (T := LoadModelLibrary_Command I) network) = load_kCommand ->
  command_id (head_header (T := LoadModelLibrary_Command I) network)
  = command_id_ network ->
  (length (rx_later (tcp_socket_ network)) < fuel)%nat ->
  LoadModelLibrary.status (head_payload (T := LoadModelLibrary_Command I) network)
  = LoadModelLibrary.kOther raw ->
  fst (LibraryDownloader fuel path disk network)
  = (Done (Throw (ModelException
             "libfranka: Server reports error when loading model library.")), disk) /\
  rx_stream (tcp_socket_ (snd (LibraryDownloader fuel path disk network)))
  = after_reply network.
Proof.
  intros Hpos Hsend Hframe Hcmd Hid Hfuel Hstatus.
  destruct (LibraryDownloader_reply fuel network) as (n1 & n2 & H1 & H2 & Hrest);
    try assumption.
  unfold LibraryDownloader. rewrite H1, H2, Hstatus. cbn [fst snd]. auto.
Qed.

End Download.

(** A server that announces four bytes and sends six, onto storage that
    already holds an older library: the four bytes replace it, the other
    file stays, two bytes are left on the stream. *)
Lemma LibraryDownloader_saves_what_was_declared_witness :
  fst (LibraryDownloader (I := LittleEndian.load_interface) 2 "/tmp/libfranka_model"
         (LittleEndian.used_disk true) LittleEndian.four_of_six)
  = (Done (Ok tt),
     {| files := [("/tmp/libfranka_model", [Byte.x0a; Byte.x0b; Byte.x0c; Byte.x0d]);
                  ("/tmp/other", [Byte.x02])];
        writable := true |}) /\
  rx_stream (tcp_socket_
               (snd (LibraryDownloader (I := LittleEndian.load_interface) 2
                       "/tmp/libfranka_model" (LittleEndian.used_disk true)
                       LittleEndian.four_of_six)))
  = [Byte.x0e; Byte.x0f].
Proof.
  apply (LibraryDownloader_saves_what_was_declared (I := LittleEndian.load_interface)
           2 "/tmp/libfranka_model" (LittleEndian.used_disk true)
           LittleEndian.four_of_six);
    try reflexivity; by_evaluation.
Defined.

(** The same transfer onto storage that cannot be written. *)
Lemma LibraryDownloader_unwritable_storage_witness :
  fst (LibraryDownloader (I := LittleEndian.load_interface) 2 "/tmp/libfranka_model"
         (LittleEndian.used_disk false) LittleEndian.four_of_six)
  = (Done (Ok tt), LittleEndian.used_disk false) /\
  rx_stream (tcp_socket_
               (snd (LibraryDownloader (I := LittleEndian.load_interface) 2
                       "/tmp/libfranka_model" (LittleEndian.used_disk false)
                       LittleEndian.four_of_six)))
  = [Byte.x0e; Byte.x0f].
Proof.
  apply (LibraryDownloader_unwritable_storage_unreported
           (I := LittleEndian.load_interface)
           2 "/tmp/libfranka_model" (LittleEndian.used_disk false)
           LittleEndian.four_of_six);
    try reflexivity; by_evaluation.
Defined.

(** A server that refuses, with two more bytes behind its reply. *)
Lemma LibraryDownloader_server_error_witness :
  fst (LibraryDownloader (I := LittleEndian.load_interface) 2 "/tmp/libfranka_model"
         (LittleEndian.used_disk true)
         (LittleEndian.receiving []
            [LittleEndian.library_refusal ++ [Byte.x0e; Byte.x0f]]))
  = (Done (Throw (ModelException
             "libfranka: Server reports error when loading model library.")),
     LittleEndian.used_disk true) /\
  rx_stream (tcp_socket_
               (snd (LibraryDownloader (I := LittleEndian.load_interface) 2
                       "/tmp/libfranka_model" (LittleEndian.used_disk true)
                       (LittleEndian.receiving []
                          [LittleEndian.library_refusal ++ [Byte.x0e; Byte.x0f]]))))
  = [Byte.x0e; Byte.x0f].
Proof.
  apply (LibraryDownloader_server_error (I := LittleEndian.load_interface)
           2 "/tmp/libfranka_model" (LittleEndian.used_disk true)
           (LittleEndian.receiving []
              [LittleEndian.library_refusal ++ [Byte.x0e; Byte.x0f]]) 1);
    try reflexivity; by_evaluation.
Defined.

(** ** The streaming channel: receives one after the other *)

Lemma last_cons_default {X : Type} (l : list X) :
  forall x d, last (x :: l) d = last l x.
Proof.
  induction l as [|y l IH]; intros x d; [reflexivity|].
  change (last (x :: y :: l) d) with (last (y :: l) d).
  now rewrite !IH.
Qed.

(** [udpReceive] with no complete datagram at the head of the queue. *)
Lemma udpReceive_nothing_queued_head {A : Type} {W : Wire A} (data : A) (n : Network) :
  (0 < sizeof A)%nat ->
  (forall d queue, dg_queue (udp_socket_ n) = d :: queue -> (length d < sizeof A)%nat) ->
  udpReceive data n = (Ok (false, data), n).
Proof.
  intros Hpos Hhead. unfold udpReceive, udp_available.
  destruct (dg_queue (udp_socket_ n)) as [|d queue] eqn:Hq.
  - destruct (Nat.leb_spec (sizeof A) 0); [lia | reflexivity].
  - specialize (Hhead d queue eq_refl).
    destruct (Nat.leb_spec (sizeof A) (length d)); [lia | reflexivity].
Qed.

(** [udpReceive] with a datagram of the right size at the head. *)
Lemma udpReceive_head {A : Type} {W : Wire A} (data : A) (d : list Byte.byte)
    (queue : list (list Byte.byte)) (n : Network) :
  dg_queue (udp_socket_ n) = d :: queue ->
  length d = sizeof A ->
  udpReceive data n
  = (Ok (true, of_bytes d),
     set_udp_socket {| dg_queue := queue; dg_later := dg_later (udp_socket_ n) |} n).
Proof.
  intros Hq Hlen. unfold udpReceive, udp_available. rewrite Hq, Hlen, Nat.leb_refl.
  now rewrite (udpBlockingReceiveUnsafe_head d queue n Hq Hlen).
Qed.

Section StreamingInOrder.

Context {A : Type} {W : Wire A}.

(** X11: With nothing but snapshots of the right size queued, as many
    [udpReceive] calls as there are snapshots return them one by one in
    the order they arrived, and the call after those returns [false] and
    leaves in [*data] the snapshot that arrived last; the queue is then
    empty and nothing was waited for. *)
Theorem udpReceive_each_in_arrival_order (queue : list (list Byte.byte)) :
  forall (data : A) (n : Network),
    (0 < sizeof A)%nat ->
    dg_queue (udp_socket_ n) = queue ->
    Forall (fun d => length d = sizeof A) queue ->
    udpReceive_each (S (length queue)) data n
    = (map (fun d => Ok (true, of_bytes d)) queue
       ++ [Ok (false, last (map of_bytes queue) data)],
       set_udp_socket {| dg_queue := []; dg_later := dg_later (udp_socket_ n) |} n).
Proof.
  induction queue as [|d queue IH]; intros data n Hpos Hq Hall.
  - cbn [length udpReceive_each map app last].
    rewrite (udpReceive_nothing_queued_head data n Hpos).
    + destruct n as [tcp [q later] port cid]. cbn in Hq. subst q. reflexivity.
    + rewrite Hq. intros d' queue' H. discriminate H.
  - inversion Hall as [|d' queue' Hd Hrest]; subst d' queue'.
    cbn [length]. change (udpReceive_each (S (S (length queue))) data n)
      with (match udpReceive data n with
            | (Ok (received, data'), n') =>
                let '(rest, n'') := udpReceive_each (S (length queue)) data' n' in
                (Ok (received, data') :: rest, n'')
            | (Throw e, n') =>
                let '(rest, n'') := udpReceive_each (S (length queue)) data n' in
                (Throw e :: rest, n'')
            end).
    rewrite (udpReceive_head data d queue n Hq Hd).
    rewrite (IH (of_bytes d)
               (set_udp_socket {| dg_queue := queue;
                                  dg_later := dg_later (udp_socket_ n) |} n)
               Hpos eq_refl Hrest).
    cbn [map app]. rewrite last_cons_default. reflexivity.
Qed.

(** X12: A datagram shorter than the object at the head of the queue holds
    [udpReceive] up, and only a blocking receive moves on: [udpReceive]
    returns [false] and leaves the short datagram where it is, however
    many complete snapshots wait behind it; [udpBlockingReceive] takes
    the short datagram off the queue with its [ProtocolException]; after
    that [udpReceive] returns the snapshot that was behind it. *)
Theorem udpReceive_held_up_by_short_datagram (data : A)
    (short d : list Byte.byte) (queue : list (list Byte.byte)) (n : Network) :
  dg_queue (udp_socket_ n) = short :: d :: queue ->
  (length short < sizeof A)%nat ->
  length d = sizeof A ->
  udpReceive data n = (Ok (false, data), n) /\
  exists n1,
    udpBlockingReceive (A := A) n
    = (Throw (ProtocolException "libfranka: incorrect object size"), n1) /\
    udpReceive data n1
    = (Ok (true, of_bytes d),
       set_udp_socket {| dg_queue := queue; dg_later := dg_later (udp_socket_ n) |} n).
Proof.
  intros Hq Hshort Hd. split.
  - apply udpReceive_nothing_queued_head; [lia|].
    rewrite Hq. intros d' queue' H. inversion H; subst. exact Hshort.
  - exists (set_udp_socket {| dg_queue := d :: queue;
                              dg_later := dg_later (udp_socket_ n) |} n).
    split.
    + unfold udpBlockingReceive, udpBlockingReceiveUnsafe, receiveFrom. rewrite Hq.
      rewrite firstn_all2 by lia.
      destruct (Nat.eqb_spec (length short) (sizeof A)) as [E|E]; [lia | reflexivity].
    + rewrite (udpReceive_head data d queue
                 (set_udp_socket {| dg_queue := d :: queue;
                                    dg_later := dg_later (udp_socket_ n) |} n)
                 eq_refl Hd).
      reflexivity.
Qed.

End StreamingInOrder.

(** Snapshots 1 and 2 queued: three calls return snapshot 1, snapshot 2
    and then [false] with snapshot 2 left in place. *)
Lemma udpReceive_each_in_arrival_order_witness :
  udpReceive_each (W := LittleEndian.Snapshot_le) 3
    {| LittleEndian.message_id := 0 |} LittleEndian.two_queued
  = ([Ok (true, {| LittleEndian.message_id := 1 |});
      Ok (true, {| LittleEndian.message_id := 2 |});
      Ok (false, {| LittleEndian.message_id := 2 |})],
     LittleEndian.idle).
Proof.
  apply (udpReceive_each_in_arrival_order (W := LittleEndian.Snapshot_le)
           [LittleEndian.snapshot_bytes 1; LittleEndian.snapshot_bytes 2]
           {| LittleEndian.message_id := 0 |} LittleEndian.two_queued).
  - by_evaluation.
  - reflexivity.
  - repeat constructor.
Defined.

(** Two bytes queued ahead of snapshot 2. *)
Lemma udpReceive_held_up_witness :
  udpReceive (W := LittleEndian.Snapshot_le)
    {| LittleEndian.message_id := 0 |} LittleEndian.short_then_snapshot
  = (Ok (false, {| LittleEndian.message_id := 0 |}), LittleEndian.short_then_snapshot) /\
  exists n1,
    udpBlockingReceive (W := LittleEndian.Snapshot_le) LittleEndian.short_then_snapshot
    = (Throw (ProtocolException "libfranka: incorrect object size"), n1) /\
    udpReceive (W := LittleEndian.Snapshot_le) {| LittleEndian.message_id := 0 |} n1
    = (Ok (true, {| LittleEndian.message_id := 2 |}), LittleEndian.idle).
Proof.
  apply (udpReceive_held_up_by_short_datagram (W := LittleEndian.Snapshot_le)
           {| LittleEndian.message_id := 0 |}
           [Byte.x01; Byte.x00] (LittleEndian.snapshot_bytes 2) []
           LittleEndian.short_then_snapshot);
    try reflexivity; by_evaluation.
Defined.

(** * The checks of [control_types.h] *)

Import Floats.

Section ControlTypesFacts.

Local Open Scope float_scope.

Lemma SFeqb_finite_inv (f : spec_float) (s : bool) (m : positive) (e : Z) :
  SFeqb f (S754_finite s m e) = true -> f = S754_finite s m e.
Proof.
  unfold SFeqb, SFcompare. intros H.
  destruct f as [s'|s'| |s' m' e']; try discriminate H.
  - destruct s; discriminate H.
  - destruct s'; discriminate H.
  - destruct s', s; try discriminate H;
      destruct (Z.compare_spec e' e) as [->|?|?]; try discriminate H;
      destruct (PosDef.Pos.compare_cont Eq m' m) eqn:C; try discriminate H;
      apply (Pos.compare_eq m' m) in C; now subst.
Qed.

(** [x == y] for a finite non-zero [y] holds of the value [y] alone. *)
Lemma eqb_finite_inv (x y : float) (s : bool) (m : positive) (e : Z) :
  Prim2SF y = S754_finite s m e -> (x =? y) = true -> x = y.
Proof.
  intros Hy H. rewrite FloatAxioms.eqb_spec, Hy in H.
  apply SFeqb_finite_inv in H.
  rewrite <- (FloatAxioms.SF2Prim_Prim2SF x), <- (FloatAxioms.SF2Prim_Prim2SF y).
  now rewrite H, Hy.
Qed.

Lemma eqb_one_inv (x : float) : (x =? 1) = true -> x = 1.
Proof. apply (eqb_finite_inv x 1 false 4503599627370496 (-52)). reflexivity. Qed.

Lemma eqb_minus_one_inv (x : float) : (x =? -1) = true -> x = -1.
Proof. apply (eqb_finite_inv x (-1) true 4503599627370496 (-52)). reflexivity. Qed.

(** A sum with a NaN in it is NaN. *)
Lemma add_nan_r (x : float) : x + nan = nan.
Proof.
  rewrite <- (FloatAxioms.SF2Prim_Prim2SF (x + nan)), FloatAxioms.add_spec.
  change (Prim2SF nan) with S754_nan.
  destruct (Prim2SF x); reflexivity.
Qed.

Lemma add_nan_l (x : float) : nan + x = nan.
Proof.
  rewrite <- (FloatAxioms.SF2Prim_Prim2SF (nan + x)), FloatAxioms.add_spec.
  change (Prim2SF nan) with S754_nan.
  destruct (Prim2SF x); reflexivity.
Qed.

Lemma isValidElbow_sign (position sign : float) :
  ControlTypes.isValidElbow [position; sign] = true <-> sign = 1 \/ sign = -1.
Proof.
  unfold ControlTypes.isValidElbow, ControlTypes.elem. cbn [nth].
  rewrite orb_true_iff. split.
  - intros [H|H]; [right; now apply eqb_minus_one_inv | left; now apply eqb_one_inv].
  - intros [H|H]; rewrite H; [right | left]; reflexivity.
Qed.

(** X14: [checkElbow] returns normally for exactly the elbow configurations
    whose joint position is finite and whose sign is 1 or -1.  (The
    finiteness test on the sign adds nothing to that.) *)
Theorem checkElbow_accepts_exactly (position sign : float) :
  ControlTypes.checkElbow [position; sign] = ControlTypes.Passed
  <-> is_finite position = true /\ (sign = 1 \/ sign = -1).
Proof.
  unfold ControlTypes.checkElbow, ControlTypes.checkFinite.
  cbn [forallb]. rewrite andb_true_r.
  pose proof (isValidElbow_sign position sign) as Hvalid.
  split.
  - destruct (is_finite position); cbn [andb negb]; [|discriminate].
    destruct (is_finite sign); cbn [negb]; [|discriminate].
    destruct (ControlTypes.isValidElbow [position; sign]); cbn [negb]; [|discriminate].
    intros _. split; [reflexivity | now apply Hvalid].
  - intros [-> Hsign]. cbn [andb].
    assert (Hfinite : is_finite sign = true)
      by (destruct Hsign as [->| ->]; reflexivity).
    rewrite Hfinite. cbn [negb].
    apply Hvalid in Hsign. now rewrite Hsign.
Qed.

(** X16: [isHomogeneousTransformation] on its own does not keep NaN out: an
    array with NaN on the diagonal of the rotation part and 0 0 0 1 in
    the last row is taken for a homogeneous transformation, whatever its
    other entries, since every norm is then NaN and no comparison with
    NaN holds.  It is the [checkFinite] in front that makes [checkMatrix]
    throw for such an array, with the NaN message. *)
Theorem isHomogeneousTransformation_lets_NaN_through
    (pow : float -> float -> float) (transform : list float) :
  pow nan 2 = nan ->
  ControlTypes.elem transform 0 = nan ->
  ControlTypes.elem transform 5 = nan ->
  ControlTypes.elem transform 10 = nan ->
  (ControlTypes.elem transform 3 =? 0) = true ->
  (ControlTypes.elem transform 7 =? 0) = true ->
  (ControlTypes.elem transform 11 =? 0) = true ->
  (ControlTypes.elem transform 15 =? 1) = true ->
  ControlTypes.isHomogeneousTransformation pow transform = true /\
  ControlTypes.checkMatrix pow transform
  = ControlTypes.invalid_argument "Commanding value is infinite or NaN.".
Proof.
  intros Hpow H0 H5 H10 H3 H7 H11 H15.
  assert (Hnorm : forall a b : float,
             (ControlTypes.kOrthonormalThreshold <? abs (sqrt (nan + a + b) - 1)) = false
             /\ (ControlTypes.kOrthonormalThreshold <? abs (sqrt (a + nan + b) - 1)) = false
             /\ (ControlTypes.kOrthonormalThreshold <? abs (sqrt (a + b + nan) - 1)) = false).
  { intros a b. rewrite add_nan_r, add_nan_l, add_nan_r, !add_nan_l.
    repeat split; reflexivity. }
  split.
  - unfold ControlTypes.isHomogeneousTransformation.
    rewrite H3, H7, H11, H15. cbn [negb orb existsb].
    unfold ControlTypes.column_norm, ControlTypes.row_norm.
    cbn [Nat.mul Nat.add].
    rewrite H0, H5, H10, Hpow.
    repeat match goal with
           | |- context [ControlTypes.kOrthonormalThreshold <? abs (sqrt (nan + ?a + ?b) - 1)] =>
               rewrite (proj1 (Hnorm a b))
           | |- context [ControlTypes.kOrthonormalThreshold <? abs (sqrt (?a + nan + ?b) - 1)] =>
               rewrite (proj1 (proj2 (Hnorm a b)))
           | |- context [ControlTypes.kOrthonormalThreshold <? abs (sqrt (?a + ?b + nan) - 1)] =>
               rewrite (proj2 (proj2 (Hnorm a b)))
           end.
    reflexivity.
  - unfold ControlTypes.checkMatrix, ControlTypes.checkFinite.
    destruct transform as [|x transform].
    + unfold ControlTypes.elem in H0. cbn [nth] in H0.
      apply (f_equal is_nan) in H0. discriminate H0.
    + unfold ControlTypes.elem in H0. cbn [nth] in H0. subst x.
      reflexivity.
Qed.

(** NaN on the diagonal, with [pow(x, 2)] computed as the product. *)
Lemma isHomogeneousTransformation_lets_NaN_through_witness :
  ControlTypes.isHomogeneousTransformation ControlTypes.pow_by_product
    ControlTypes.nan_diagonal = true /\
  ControlTypes.checkMatrix ControlTypes.pow_by_product ControlTypes.nan_diagonal
  = ControlTypes.invalid_argument "Commanding value is infinite or NaN.".
Proof.
  apply (isHomogeneousTransformation_lets_NaN_through ControlTypes.pow_by_product
           ControlTypes.nan_diagonal); reflexivity.
Defined.

End ControlTypesFacts.
